(** * Inventory ledger of the library management system

    A shallow embedding of the stock bookkeeping of [python.py]: the book
    catalog ([LibraryData.books]), the hash index over it
    ([FastBookLookup]), the managers that add, update, delete, issue and
    restock books, the fine computation and the return action of the
    active-borrowers screen.

    Python book records are dictionaries that are shared by reference
    between [data.books] and the index, and are mutated in place.  The
    embedding keeps that sharing: every book dictionary lives in an object
    store, and the catalog list and the index hold references into it.

    The writes to the data files are left out: no operation below reads
    them back.  The clock is an argument of the operations that read it,
    and the message boxes a callback shows, or the exception it ends
    with, are part of its result. *)

From Stdlib Require Import ZArith List Bool Lia.
From stdpp Require Import base option list gmap strings pretty.

Local Open Scope Z_scope.

(** ** Clock and date texts *)

Module Clock.

(** A [datetime] is a count of microseconds on the time line. *)
Definition datetime := Z.

Definition day_us : Z := 86400000000.

(** The text of a date field.  [ISO d] is the text that
    [strftime("%Y-%m-%d")] prints for calendar day [d]; any other text
    (for instance the empty return date) is [Malformed]. *)
Inductive DateText :=
| ISO (d : Z)
| Malformed (s : string).

(** [t.strftime("%Y-%m-%d")] *)
Definition strftime_ymd (t : datetime) : DateText := ISO (t / day_us).

(** [datetime.strptime(s, "%Y-%m-%d")]: midnight of the day, or an
    exception ([None]). *)
Definition strptime_ymd (s : DateText) : option datetime :=
  match s with
  | ISO d => Some (d * day_us)
  | Malformed _ => None
  end.

(** [t + timedelta(days=n)] *)
Definition plus_days (t : datetime) (n : Z) : datetime := t + n * day_us.

(** [(a - b).days]: a timedelta is normalised with a floored day count. *)
Definition delta_days (a b : datetime) : Z := (a - b) / day_us.

(** [t.strftime("%Y-%m-%d %H:%M:%S")], as whole seconds. *)
Definition strftime_seconds (t : datetime) : Z := t / 1000000.

(** The year, month and day of calendar day [d], days being counted from
    1970-01-01 in the Gregorian calendar of [datetime]. *)
Definition civil (d : Z) : Z * Z * Z :=
  let z := d + 719468 in
  let era := z / 146097 in
  let doe := z - era * 146097 in
  let yoe := (doe - doe / 1460 + doe / 36524 - doe / 146096) / 365 in
  let doy := doe - (365 * yoe + yoe / 4 - yoe / 100) in
  let mp := (5 * doy + 2) / 153 in
  let day := doy - (153 * mp + 2) / 5 + 1 in
  let month := if mp <? 10 then mp + 3 else mp - 9 in
  let year := yoe + era * 400 + (if month <=? 2 then 1 else 0) in
  (year, month, day).

Definition two_digits (n : Z) : string :=
  if n <? 10 then "0" +:+ pretty n else pretty n.

Definition four_digits (n : Z) : string :=
  if n <? 10 then "000" +:+ pretty n
  else if n <? 100 then "00" +:+ pretty n
  else if n <? 1000 then "0" +:+ pretty n
  else pretty n.

(** The characters of a date text: year, month and day with their zeros
    for [ISO d]. *)
Definition text (s : DateText) : string :=
  match s with
  | ISO d =>
      let '(year, month, day) := civil d in
      four_digits year +:+ "-" +:+ two_digits month +:+ "-" +:+ two_digits day
  | Malformed s => s
  end.

End Clock.

(** ** Records *)

Module Book.

Record t := mk {
  id : Z;
  s_no_code : string;
  title : string;
  author : string;
  isbn : string;
  category : string;
  publisher : string;
  publication_year : string;
  page_count : Z;
  price : Z;
  total_copies : Z;
  available_copies : Z;
  shelf_location : string;
  description : string;
  added_date : Clock.DateText
}.

(** [book['available_copies'] = v] *)
Definition set_available_copies (v : Z) (b : t) : t :=
  mk (id b) (s_no_code b) (title b) (author b) (isbn b) (category b)
     (publisher b) (publication_year b) (page_count b) (price b)
     (total_copies b) v (shelf_location b) (description b) (added_date b).

(** [book['total_copies'] = v] *)
Definition set_total_copies (v : Z) (b : t) : t :=
  mk (id b) (s_no_code b) (title b) (author b) (isbn b) (category b)
     (publisher b) (publication_year b) (page_count b) (price b)
     v (available_copies b) (shelf_location b) (description b) (added_date b).

(** The copies on loan, as the delete and edit messages compute them. *)
Definition issued (b : t) : Z := total_copies b - available_copies b.

End Book.

(** The argument of [add_book]: the keys read with [book_data[...]] are
    required, the ones read with [book_data.get(..., default)] optional. *)
Module BookData.

Record t := mk {
  s_no_code : option string;
  title : string;
  author : string;
  isbn : string;
  category : string;
  publisher : string;
  publication_year : string;
  page_count : Z;
  price : Z;
  total_copies : Z;
  shelf_location : option string;
  description : option string
}.

End BookData.

(** The argument of [update_book]: a dictionary holding any subset of the
    keys of a book. *)
Module BookUpdate.

Record t := mk {
  id : option Z;
  s_no_code : option string;
  title : option string;
  author : option string;
  isbn : option string;
  category : option string;
  publisher : option string;
  publication_year : option string;
  page_count : option Z;
  price : option Z;
  total_copies : option Z;
  available_copies : option Z;
  shelf_location : option string;
  description : option string;
  added_date : option Clock.DateText
}.

Definition empty : t :=
  mk None None None None None None None None None None None None None None None.

(** The dictionary [{"total_copies": n}]. *)
Definition only_total_copies (n : Z) : t :=
  mk None None None None None None None None None None (Some n) None None None None.

(** [for key, value in updated_data.items(): if key in book: book[key] = value] *)
Definition overwrite (u : t) (b : Book.t) : Book.t :=
  Book.mk
    (default (Book.id b) (id u))
    (default (Book.s_no_code b) (s_no_code u))
    (default (Book.title b) (title u))
    (default (Book.author b) (author u))
    (default (Book.isbn b) (isbn u))
    (default (Book.category b) (category u))
    (default (Book.publisher b) (publisher u))
    (default (Book.publication_year b) (publication_year u))
    (default (Book.page_count b) (page_count u))
    (default (Book.price b) (price u))
    (default (Book.total_copies b) (total_copies u))
    (default (Book.available_copies b) (available_copies u))
    (default (Book.shelf_location b) (shelf_location u))
    (default (Book.description b) (description u))
    (default (Book.added_date b) (added_date u)).

End BookUpdate.

Module Member.

Record t := mk {
  id : string;
  name : string;
  phone : string;
  max_books : Z;
  active : bool;
  total_borrowed : Z;
  current_borrowed : Z
}.

End Member.

Module Transaction.

Inductive status_t := issued | returned.

Record t := mk {
  id : Z;
  book_id : Z;
  member_id : string;
  issue_date : Clock.DateText;
  due_date : Clock.DateText;
  return_date : Clock.DateText;
  status : status_t;
  fine_amount : Z;
  fine_paid : bool;
  renewals : Z
}.

End Transaction.

(** One entry of [stock_history]. *)
Module StockRecord.

Inductive action_t := restock | bulk_restock.

Record t := mk {
  history_id : Z;
  book_id : Z;
  book_title : string;
  book_author : string;
  book_isbn : string;
  action : action_t;
  quantity_added : Z;
  old_stock : Z;
  new_stock : Z;
  old_total : Z;
  new_total : Z;
  source : string;
  notes : string;
  timestamp : Z;
  performed_by : string
}.

End StockRecord.

(** One row of the [admin_saves] table, with the columns the return action
    reads and writes. *)
Module AdminSave.

Record t := mk {
  student_name : string;
  student_phone : string;
  book_title : string;
  book_author : string;
  issue_date : Clock.DateText;
  due_date : Clock.DateText;
  return_date : Clock.DateText;
  status : Transaction.status_t
}.

End AdminSave.

(** ** The object store and the library state *)

(** A reference to a book dictionary: its position in the store. *)
Definition ref := nat.

(** [FastBookLookup]: five dictionaries from a key to a book reference. *)
Module FastBookLookup.

Record t := mk {
  by_id : gmap Z ref;
  by_isbn : gmap string ref;
  by_sno : gmap string ref;
  by_title : gmap string ref;
  title_lower_map : gmap string ref
}.

Definition empty : t := mk ∅ ∅ ∅ ∅ ∅.

End FastBookLookup.

Record LibraryData := mkData {
  store : list Book.t;            (* every book dictionary created so far *)
  books : list ref;               (* data.books *)
  book_lookup : FastBookLookup.t; (* data.book_lookup *)
  members : list Member.t;        (* data.members *)
  transactions : list Transaction.t; (* data.transactions *)
  admin_saves : list AdminSave.t  (* the admin_saves table *)
}.

Definition with_store (st : list Book.t) (d : LibraryData) : LibraryData :=
  mkData st (books d) (book_lookup d) (members d) (transactions d) (admin_saves d).

Definition with_books (bs : list ref) (d : LibraryData) : LibraryData :=
  mkData (store d) bs (book_lookup d) (members d) (transactions d) (admin_saves d).

Definition with_book_lookup (ix : FastBookLookup.t) (d : LibraryData) : LibraryData :=
  mkData (store d) (books d) ix (members d) (transactions d) (admin_saves d).

Definition with_members (ms : list Member.t) (d : LibraryData) : LibraryData :=
  mkData (store d) (books d) (book_lookup d) ms (transactions d) (admin_saves d).

Definition with_transactions (ts : list Transaction.t) (d : LibraryData) : LibraryData :=
  mkData (store d) (books d) (book_lookup d) (members d) ts (admin_saves d).

Definition with_admin_saves (sv : list AdminSave.t) (d : LibraryData) : LibraryData :=
  mkData (store d) (books d) (book_lookup d) (members d) (transactions d) sv.

(** [LibraryData.__init__] with no data files. *)
Definition empty_library : LibraryData :=
  mkData [] [] FastBookLookup.empty [] [] [].

(** Creating a new dictionary: it gets the next free reference. *)
Definition alloc (b : Book.t) (d : LibraryData) : ref * LibraryData :=
  (length (store d), with_store (store d ++ [b]) d).

(** Writing through a reference. *)
Definition write (l : ref) (b : Book.t) (d : LibraryData) : LibraryData :=
  with_store (<[l := b]> (store d)) d.

(** [for i, book in enumerate(books): if p(book): ...]: the position and
    the reference of the first book of the list that satisfies [p]. *)
Fixpoint scan_from (st : list Book.t) (p : Book.t → bool) (i : nat)
    (bs : list ref) : option (nat * ref) :=
  match bs with
  | [] => None
  | l :: rest =>
      match st !! l with
      | Some b => if p b then Some (i, l) else scan_from st p (S i) rest
      | None => scan_from st p (S i) rest
      end
  end.

Definition scan (d : LibraryData) (p : Book.t → bool) : option (nat * ref) :=
  scan_from (store d) p 0%nat (books d).

Definition has_id (book_id : Z) (b : Book.t) : bool := Book.id b =? book_id.
Definition has_isbn (isbn : string) (b : Book.t) : bool := String.eqb (Book.isbn b) isbn.
Definition has_title (title : string) (b : Book.t) : bool := String.eqb (Book.title b) title.

(** ** FastBookLookup *)

(** [str.lower] on the ASCII letters. *)
Definition lower_ascii (c : Ascii.ascii) : Ascii.ascii :=
  let n := Ascii.nat_of_ascii c in
  if (65 <=? n)%nat && (n <=? 90)%nat then Ascii.ascii_of_nat (n + 32) else c.

Fixpoint lower (s : string) : string :=
  match s with
  | EmptyString => EmptyString
  | String c rest => String (lower_ascii c) (lower rest)
  end.

(** A non-empty string is true in a condition. *)
Definition truthy (s : string) : bool := negb (String.eqb s EmptyString).

(** The body of the loop of [build_index] for one book. *)
Definition index_book (l : ref) (b : Book.t) (ix : FastBookLookup.t) : FastBookLookup.t :=
  FastBookLookup.mk
    (if Book.id b =? 0 then FastBookLookup.by_id ix
     else <[Book.id b := l]> (FastBookLookup.by_id ix))
    (if truthy (Book.isbn b) then <[Book.isbn b := l]> (FastBookLookup.by_isbn ix)
     else FastBookLookup.by_isbn ix)
    (if truthy (Book.s_no_code b) then <[Book.s_no_code b := l]> (FastBookLookup.by_sno ix)
     else FastBookLookup.by_sno ix)
    (if truthy (Book.title b) then <[Book.title b := l]> (FastBookLookup.by_title ix)
     else FastBookLookup.by_title ix)
    (if truthy (Book.title b)
     then <[lower (Book.title b) := l]> (FastBookLookup.title_lower_map ix)
     else FastBookLookup.title_lower_map ix).

Definition index_ref (st : list Book.t) (ix : FastBookLookup.t) (l : ref) : FastBookLookup.t :=
  match st !! l with
  | Some b => index_book l b ix
  | None => ix
  end.

(** [build_index(books)]: clear the five dictionaries and fill them in list
    order, later books overwriting earlier ones under the same key. *)
Definition build_index (st : list Book.t) (bs : list ref) : FastBookLookup.t :=
  fold_left (index_ref st) bs FastBookLookup.empty.

Definition rebuild (d : LibraryData) : LibraryData :=
  with_book_lookup (build_index (store d) (books d)) d.

(** [book_lookup.get_by_id(book_id)] *)
Definition get_by_id (d : LibraryData) (book_id : Z) : option ref :=
  FastBookLookup.by_id (book_lookup d) !! book_id.

(** ** BookManager *)

(** [add_book(book_data)]; [now] is the reading of the clock. *)
Definition add_book (now : Clock.datetime) (book_data : BookData.t)
    (d : LibraryData) : Z * LibraryData :=
  let book_id := Z.of_nat (length (books d)) + 1 in
  let book :=
    Book.mk book_id
      (default ("T" +:+ pretty book_id) (BookData.s_no_code book_data))
      (BookData.title book_data)
      (BookData.author book_data)
      (BookData.isbn book_data)
      (BookData.category book_data)
      (BookData.publisher book_data)
      (BookData.publication_year book_data)
      (BookData.page_count book_data)
      (BookData.price book_data)
      (BookData.total_copies book_data)
      (BookData.total_copies book_data)
      (default EmptyString (BookData.shelf_location book_data))
      (default EmptyString (BookData.description book_data))
      (Clock.strftime_ymd now) in
  let '(l, d1) := alloc book d in
  let d2 := with_books (books d1 ++ [l]) d1 in
  (book_id, rebuild d2).

(** An exception, by its class; a [NameError] carries the name that was
    not found. *)
Inductive Exception :=
| NameError (name : string)
| IndexError
| ValueError.

(** What a callback of the window shows: a message box (the kind and the
    title of the window), or the traceback of an exception that it does
    not catch, with which the callback ends. *)
Inductive Dialog :=
| showerror (title : string)
| showinfo (title : string)
| showwarning (title : string)
| uncaught (e : Exception).

(** Reading through a reference, and through a position of [data.books]. *)
Definition deref (d : LibraryData) (l : ref) : option Book.t := store d !! l.

Definition book_at (d : LibraryData) (i : nat) : option Book.t :=
  books d !! i ≫= deref d.

(** The adjustment of the copies in [update_book], once the fields have
    been overwritten through [l]; [i] is the position the loop is at. *)
Definition adjust_copies (i : nat) (l : ref) (new_total : Z) (d : LibraryData) : LibraryData :=
  match book_at d i, deref d l with
  | Some at_i, Some book =>
      let old_total := Book.total_copies at_i in
      if new_total >? old_total then
        let diff := new_total - old_total in
        write l (Book.set_available_copies (Book.available_copies book + diff) book) d
      else if new_total <? old_total then
        let diff := old_total - new_total in
        write l (Book.set_total_copies new_total
                   (Book.set_available_copies
                      (Z.max 0 (Book.available_copies book - diff)) book)) d
      else d
  | _, _ => d
  end.

(** [update_book(book_id, updated_data)] *)
Definition update_book (book_id : Z) (updated_data : BookUpdate.t)
    (d : LibraryData) : bool * LibraryData :=
  match scan d (has_id book_id) with
  | Some (i, l) =>
      match deref d l with
      | Some book =>
          let d1 := write l (BookUpdate.overwrite updated_data book) d in
          let d2 :=
            match BookUpdate.total_copies updated_data with
            | Some new_total => adjust_copies i l new_total d1
            | None => d1
            end in
          (true, rebuild d2)
      | None => (false, d)
      end
  | None => (false, d)
  end.

(** [delete_book(book_id)]: the value returned, the message boxes shown and
    the new state. *)
Definition delete_book (book_id : Z) (d : LibraryData) : bool * list Dialog * LibraryData :=
  match scan d (has_id book_id) with
  | Some (i, l) =>
      match deref d l with
      | Some book =>
          if Book.available_copies book <? Book.total_copies book
          then (false, [showerror "Cannot Delete"], d)
          else (true, [], rebuild (with_books (delete i (books d)) d))
      | None => (false, [], d)
      end
  | None => (false, [], d)
  end.

(** The first loop of [delete_selected_books]: the books to delete and the
    books with copies issued, both in the order of [book_ids]. *)
Fixpoint check_selected (d : LibraryData) (book_ids : list Z) : list ref * list ref :=
  match book_ids with
  | [] => ([], [])
  | book_id :: rest =>
      let '(books_to_delete, books_with_issues) := check_selected d rest in
      match get_by_id d book_id with
      | Some l =>
          match deref d l with
          | Some book =>
              if Book.available_copies book <? Book.total_copies book
              then (books_to_delete, l :: books_with_issues)
              else (l :: books_to_delete, books_with_issues)
          | None => (books_to_delete, books_with_issues)
          end
      | None => (books_to_delete, books_with_issues)
      end
  end.

(** The inner loop: delete the first element of [data.books] whose id is
    the id of [book]. *)
Definition delete_first_with_id_of (d : LibraryData) (l : ref) : LibraryData :=
  match deref d l with
  | Some book =>
      match scan d (has_id (Book.id book)) with
      | Some (i, _) => with_books (delete i (books d)) d
      | None => d
      end
  | None => d
  end.

(** [delete_selected_books(book_ids)] *)
Definition delete_selected_books (book_ids : list Z) (d : LibraryData)
    : bool * list Dialog * LibraryData :=
  let '(books_to_delete, books_with_issues) := check_selected d book_ids in
  let errors := match books_with_issues with
                | [] => []
                | _ => [showerror "Cannot Delete"]
                end in
  match books_with_issues, books_to_delete with
  | _ :: _, [] => (false, errors, d)
  | _, _ =>
      let d1 := fold_left delete_first_with_id_of books_to_delete d in
      let d2 := rebuild d1 in
      match books_to_delete with
      | [] => (false, errors, d2)
      | _ =>
          (true,
           errors ++ [showinfo (match books_with_issues with
                                | [] => "Success"
                                | _ => "Partial Success"
                                end)],
           d2)
      end
  end.

(** ** MemberManager *)

Definition bump_member (delta : Z) (m : Member.t) : Member.t :=
  let current := Member.current_borrowed m + delta in
  Member.mk (Member.id m) (Member.name m) (Member.phone m) (Member.max_books m)
    (Member.active m)
    (Member.total_borrowed m + Z.abs delta)
    (if current <? 0 then 0 else current).

(** The loop of [update_borrow_count] over [data.members]. *)
Fixpoint update_first_member (member_id : string) (delta : Z) (ms : list Member.t)
    : bool * list Member.t :=
  match ms with
  | [] => (false, [])
  | m :: rest =>
      if String.eqb (Member.id m) member_id
      then (true, bump_member delta m :: rest)
      else let '(found, rest') := update_first_member member_id delta rest in
           (found, m :: rest')
  end.

(** [update_borrow_count(member_id, delta)] *)
Definition update_borrow_count (member_id : string) (delta : Z) (d : LibraryData)
    : bool * LibraryData :=
  let '(found, ms) := update_first_member member_id delta (members d) in
  (found, with_members ms d).

(** ** TransactionManager *)

Record TransactionManager := mkTM {
  loan_period : Z;
  daily_fine : Z
}.

(** [TransactionManager.__init__] *)
Definition new_TransactionManager : TransactionManager := mkTM 14 10.

(** The second component of the result of [issue_book]. *)
Inductive IssueMessage :=
| Book_not_available
| Book_issued_successfully (due_date : Clock.DateText).

(** [issue_book(book_id, member_id)] *)
Definition issue_book (tm : TransactionManager) (now : Clock.datetime)
    (book_id : Z) (member_id : string) (d : LibraryData)
    : bool * IssueMessage * LibraryData :=
  match get_by_id d book_id ≫= (λ l, pair l <$> deref d l) with
  | None => (false, Book_not_available, d)
  | Some (l, book) =>
      if Book.available_copies book <=? 0 then (false, Book_not_available, d)
      else
        let transaction_id := Z.of_nat (length (transactions d)) + 1 in
        let issue_date := now in
        let due_date := Clock.plus_days issue_date (loan_period tm) in
        let transaction :=
          Transaction.mk transaction_id book_id member_id
            (Clock.strftime_ymd issue_date) (Clock.strftime_ymd due_date)
            (Clock.Malformed EmptyString) Transaction.issued 0 false 0 in
        let d1 := write l (Book.set_available_copies
                             (Book.available_copies book - 1) book) d in
        let d2 := snd (update_borrow_count member_id 1 d1) in
        let d3 := with_transactions (transactions d2 ++ [transaction]) d2 in
        (true, Book_issued_successfully (Clock.strftime_ymd due_date), d3)
  end.

(** [calculate_fine(due_date_str)]; [now] is the reading of the clock.  A
    text that [strptime] rejects raises, and the handler returns 0. *)
Definition calculate_fine (tm : TransactionManager) (now : Clock.datetime)
    (due_date_str : Clock.DateText) : Z :=
  let today := now in
  match Clock.strptime_ymd due_date_str with
  | Some due_date =>
      if today >? due_date then
        let days_overdue := Clock.delta_days today due_date in
        days_overdue * daily_fine tm
      else 0
  | None => 0
  end.

(** ** StockManagementSystem *)

Record StockManagementSystem := mkStock {
  data : LibraryData;
  stock_history : list StockRecord.t
}.

(** The record that [restock_book] and the bulk restock append, built after
    the two counts of [book] have been raised by [quantity]. *)
Definition history_record (now : Clock.datetime) (action : StockRecord.action_t)
    (source notes : string) (quantity old_stock old_total : Z) (book : Book.t)
    (history : list StockRecord.t) : StockRecord.t :=
  StockRecord.mk (Z.of_nat (length history) + 1) (Book.id book) (Book.title book)
    (Book.author book) (Book.isbn book) action quantity
    old_stock (Book.available_copies book) old_total (Book.total_copies book)
    source notes (Clock.strftime_seconds now) "admin".

(** Raising both counts of the book behind [l], then logging it. *)
Definition restock_ref (now : Clock.datetime) (action : StockRecord.action_t)
    (source notes : string) (quantity : Z) (l : ref) (book : Book.t)
    (s : StockManagementSystem) : StockManagementSystem :=
  let old_stock := Book.available_copies book in
  let old_total := Book.total_copies book in
  let book1 := Book.set_available_copies (Book.available_copies book + quantity) book in
  let book2 := Book.set_total_copies (Book.total_copies book1 + quantity) book1 in
  mkStock (write l book2 (data s))
    (stock_history s ++
       [history_record now action source notes quantity old_stock old_total book2
          (stock_history s)]).

(** [restock_book(book_id, quantity, source, notes)]: the flag and the book
    returned, and the new state. *)
Definition restock_book (now : Clock.datetime) (book_id quantity : Z)
    (source notes : string) (s : StockManagementSystem)
    : bool * option ref * StockManagementSystem :=
  match scan (data s) (has_id book_id) with
  | Some (_, l) =>
      match deref (data s) l with
      | Some book =>
          (true, Some l, restock_ref now StockRecord.restock source notes quantity l book s)
      | None => (false, None, s)
      end
  | None => (false, None, s)
  end.

(** What the bulk restock reports. *)
Record BulkSummary := mkSummary {
  restocked_books : list string;
  skipped_books : list string
}.

(** One iteration of the loop over the rows of the sheet; a row is the
    pair of [str(row['ISBN']).strip()] and [int(row['Quantity'])]. *)
Definition bulk_row (now : Clock.datetime) (acc : StockManagementSystem * BulkSummary)
    (row : string * Z) : StockManagementSystem * BulkSummary :=
  let '(s, sm) := acc in
  let '(isbn, quantity) := row in
  match scan (data s) (has_isbn isbn) ≫= (λ il, pair il.2 <$> deref (data s) il.2) with
  | Some (l, book) =>
      (restock_ref now StockRecord.bulk_restock "Excel Import"
         "Bulk restock from Excel file" quantity l book s,
       mkSummary (restocked_books sm ++ [Book.title book]) (skipped_books sm))
  | None => (s, mkSummary (restocked_books sm) (skipped_books sm ++ [isbn]))
  end.

(** [bulk_restock_from_excel], from the rows read out of the sheet on: the
    value returned, the summary shown, and the new state. *)
Definition bulk_restock_from_excel (now : Clock.datetime) (rows : list (string * Z))
    (s : StockManagementSystem) : bool * BulkSummary * StockManagementSystem :=
  let '(s', sm) := fold_left (bulk_row now) rows (s, mkSummary [] []) in
  (true, sm, s').

(** ** The loading spinner *)

(** The names bound at the top level of the module: its imports (lines 1
    to 14), its classes, its function, and the names of the main block. *)
Definition module_globals : list string :=
  ["os"; "json"; "sqlite3"; "tk"; "ttk"; "messagebox"; "filedialog";
   "datetime"; "timedelta"; "Image"; "ImageTk"; "ImageDraw"; "ImageFilter";
   "csv"; "threading"; "queue"; "pd"; "openpyxl"; "simpledialog"; "np";
   "FastCache"; "FastBookLookup"; "LoadingSpinner"; "DataChangeObserver";
   "DataObservable"; "BookDataObservable"; "UIUpdater";
   "StockManagementSystem"; "GlassPanel"; "ExcelManager"; "LibraryData";
   "AsyncDatabaseManager"; "HistoryManager"; "AdminPanelSaver"; "BookManager";
   "MemberManager"; "TransactionManager"; "debug_sqlite_connection";
   "LibraryManagementSystem"; "root"; "app"; "width"; "height"; "x"; "y";
   "on_closing"].

(** Reading a name that is neither local nor a builtin: one that the
    module does not bind raises [NameError]. *)
Definition global_name (name : string) : Exception + unit :=
  if bool_decide (name ∈ module_globals) then inr () else inl (NameError name).

Module LoadingSpinner.

(** Whether the window of the spinner is there, and the flag [running]. *)
Record t := mk {
  window : bool;
  running : bool
}.

(** The loop [for i in range(0, 360, 15)] of [animate_spinner]: each turn
    leaves the loop when [running] is off, and otherwise redraws the arc,
    updates the window and calls [time.sleep(0.05)]. *)
Fixpoint turns (angles : list Z) (sp : t) : Exception + t :=
  match angles with
  | [] => inr sp
  | _ :: rest =>
      if negb (running sp) then inr sp
      else
        match global_name "time" with
        | inl e => inl e
        | inr _ => turns rest sp
        end
  end.

(** [animate_spinner()] *)
Definition animate_spinner (sp : t) : Exception + t :=
  if negb (running sp) || negb (window sp) then inr sp
  else turns (map (λ i, 15 * i) (seqZ 0 24)) sp.

(** [show(message)]: whatever the spinner was, a new window is made,
    [running] is set and the animation starts. *)
Definition show : Exception + t := animate_spinner (mk true true).

End LoadingSpinner.

(** ** The return action of the active-borrowers screen *)

(** The text of a status column. *)
Definition status_text (st : Transaction.status_t) : string :=
  match st with
  | Transaction.issued => "issued"
  | Transaction.returned => "returned"
  end.

(** The values of the row that [refresh_admin_borrowers] inserts in the
    tree for one row of the table; [today] is the reading of the clock. *)
Definition borrower_row (today : Clock.datetime) (row : AdminSave.t) : list string :=
  let '(days_text, status_color) :=
    match Clock.strptime_ymd (AdminSave.due_date row) with
    | Some due_date =>
        let days_left := Clock.delta_days due_date today in
        if days_left <? 0 then (pretty (- days_left) +:+ " days overdue", "Overdue")
        else if days_left =? 0 then ("Today", "Due Today")
        else (pretty days_left +:+ " days", "Active")
    | None => ("N/A", status_text (AdminSave.status row))
    end in
  [AdminSave.student_name row;
   if truthy (AdminSave.student_phone row) then AdminSave.student_phone row else "N/A";
   AdminSave.book_title row;
   AdminSave.book_author row;
   Clock.text (AdminSave.issue_date row);
   Clock.text (AdminSave.due_date row);
   days_text;
   status_color].

(** The [UPDATE admin_saves SET status = 'returned', return_date = ?
    WHERE student_name = ? AND book_title = ? AND status = 'issued'], on
    one row. *)
Definition return_row (today : Clock.DateText) (student_name book_title : string)
    (r : AdminSave.t) : AdminSave.t :=
  if String.eqb (AdminSave.student_name r) student_name
     && String.eqb (AdminSave.book_title r) book_title
     && match AdminSave.status r with
        | Transaction.issued => true
        | Transaction.returned => false
        end
  then AdminSave.mk (AdminSave.student_name r) (AdminSave.student_phone r)
         (AdminSave.book_title r) (AdminSave.book_author r)
         (AdminSave.issue_date r) (AdminSave.due_date r)
         today Transaction.returned
  else r.

(** [mark_as_returned()]: [selection] holds the values of the row selected
    in the tree, if any, and [confirmed] is the answer to the confirmation
    box.  The spinner is shown before the [try]; after it come the update
    of the table and the loop that finds the book by title and raises its
    stock. *)
Definition mark_as_returned (now : Clock.datetime) (selection : option (list string))
    (confirmed : bool) (d : LibraryData) : list Dialog * LibraryData :=
  match selection with
  | None => ([showwarning "Warning"], d)
  | Some values =>
      match values !! 0%nat with
      | None => ([uncaught IndexError], d)
      | Some student_name =>
          match values !! 4%nat with
          | None => ([uncaught IndexError], d)
          | Some book_title =>
              if confirmed then
                match LoadingSpinner.show with
                | inl e => ([uncaught e], d)
                | inr _ =>
                    let d1 :=
                      with_admin_saves
                        (map (return_row (Clock.strftime_ymd now) student_name
                                book_title) (admin_saves d)) d in
                    let d2 :=
                      match scan d1 (has_title book_title)
                            ≫= (λ il, pair il.2 <$> deref d1 il.2) with
                      | Some (l, book) =>
                          write l
                            (Book.set_available_copies
                               (Book.available_copies book + 1) book) d1
                      | None => d1
                      end in
                    ([showinfo "Success"], d2)
                end
              else ([], d)
          end
      end
  end.

(** ** The update button of the edit dialog *)

(** The entries of the dialog: the texts after [strip()], and the numbers
    after conversion, [None] standing for a text that does not convert. *)
Record EditForm := mkForm {
  form_sno : string;
  form_author : string;
  form_title : string;
  form_publisher : string;
  form_pages : option Z;
  form_price : option Z;
  form_total_copies : option Z
}.

(** The [update_book] closure of [edit_book_dialog], opened on the book
    behind [l].  The checks of the entries come first; the spinner is
    shown before the [try] in which [book_manager.update_book] is
    called. *)
Definition edit_book_update (l : ref) (form : EditForm) (d : LibraryData)
    : list Dialog * LibraryData :=
  match deref d l with
  | None => ([], d)
  | Some book =>
      if negb (truthy (form_sno form)) then ([showerror "Error"], d)
      else if negb (truthy (form_author form)) then ([showerror "Error"], d)
      else if negb (truthy (form_title form)) then ([showerror "Error"], d)
      else
        match form_total_copies form with
        | None => ([showerror "Error"], d)
        | Some total_copies =>
            if total_copies <? 1 then ([showerror "Error"], d)
            else
              let currently_issued :=
                Book.total_copies book - Book.available_copies book in
              if total_copies <? currently_issued then ([showerror "Error"], d)
              else
                match form_pages form with
                | None => ([uncaught ValueError], d)
                | Some page_count =>
                    let price_value := default (Book.price book) (form_price form) in
                    let updated_data :=
                      BookUpdate.mk None (Some (form_sno form)) (Some (form_title form))
                        (Some (form_author form)) None None
                        (Some (form_publisher form)) None (Some page_count)
                        (Some price_value) (Some total_copies) None None None None in
                    match LoadingSpinner.show with
                    | inl e => ([uncaught e], d)
                    | inr _ =>
                        let '(success, d1) :=
                          update_book (Book.id book) updated_data d in
                        if success then ([showinfo "Success"], d1)
                        else ([showerror "Error"], d1)
                    end
                end
        end
  end.

(** ** Sample data *)

Definition sample_data (title isbn : string) (copies : Z) : BookData.t :=
  BookData.mk None title "Author" isbn "General" "" "2024" 0 0 copies None None.

Definition sample_member (member_id : string) : Member.t :=
  Member.mk member_id "Asha" "" 5 true 0 0.

(** [n] issues of the same book to the same member, one after the other:
    the flags returned, oldest first, and the final state. *)
Fixpoint issue_times (n : nat) (now : Clock.datetime) (book_id : Z)
    (member_id : string) (d : LibraryData) : list bool * LibraryData :=
  match n with
  | O => ([], d)
  | S k =>
      let '(ok, _, d1) := issue_book new_TransactionManager now book_id member_id d in
      let '(oks, d2) := issue_times k now book_id member_id d1 in
      (ok :: oks, d2)
  end.

(** ** Derived notions and sample states *)

(** The book that a restock of [quantity] copies leaves behind. *)
Definition restocked (quantity : Z) (book : Book.t) : Book.t :=
  Book.set_total_copies (Book.total_copies book + quantity)
    (Book.set_available_copies (Book.available_copies book + quantity) book).

(** The book a row is for: the first book of the catalog with its isbn. *)
Definition find_isbn (d : LibraryData) (isbn : string) : option (ref * Book.t) :=
  scan d (has_isbn isbn) ≫= (λ il, pair il.2 <$> deref d il.2).

(** What the rows ask for, each row read on its own against the catalog
    [d]: the isbns without a book, the titles of the books with one, and
    the copies due to the book behind [l]. *)
Fixpoint skipped_of (d : LibraryData) (rows : list (string * Z)) : list string :=
  match rows with
  | [] => []
  | (isbn, _) :: rest =>
      match find_isbn d isbn with
      | Some _ => skipped_of d rest
      | None => isbn :: skipped_of d rest
      end
  end.

Fixpoint restocked_of (d : LibraryData) (rows : list (string * Z)) : list string :=
  match rows with
  | [] => []
  | (isbn, _) :: rest =>
      match find_isbn d isbn with
      | Some (_, book) => Book.title book :: restocked_of d rest
      | None => restocked_of d rest
      end
  end.

Fixpoint added_to (d : LibraryData) (l : ref) (rows : list (string * Z)) : Z :=
  match rows with
  | [] => 0
  | (isbn, quantity) :: rest =>
      match find_isbn d isbn with
      | Some (l', _) => if decide (l' = l) then quantity + added_to d l rest
                        else added_to d l rest
      | None => added_to d l rest
      end
  end.

(** Two catalogs with the same list and, behind each reference, books
    with the same isbn and title. *)
Definition same_keys (d d' : LibraryData) : Prop :=
  books d = books d'
  ∧ ∀ l, match deref d l, deref d' l with
         | Some b, Some b' => Book.isbn b = Book.isbn b' ∧ Book.title b = Book.title b'
         | None, None => True
         | _, _ => False
         end.

(** A catalog of three titles with two copies each, and a sheet of five
    rows of which the second and the fourth name no book. *)
Definition three_books : StockManagementSystem :=
  let d1 := (add_book 0 (sample_data "Dune" "111" 2) empty_library).2 in
  let d2 := (add_book 0 (sample_data "Emma" "222" 2) d1).2 in
  let d3 := (add_book 0 (sample_data "Ulysses" "333" 2) d2).2 in
  mkStock d3 [].

Definition five_rows : list (string * Z) :=
  [("111", 1); ("999", 4); ("222", 2); ("888", 1); ("333", 3)].

(** A catalog with one title in five copies, all available, and one member. *)
Definition five_copies : LibraryData :=
  with_members [sample_member "M0001"]
    (add_book 0 (sample_data "Dune" "111" 5) empty_library).2.

(** The book that [add_book] creates. *)
Definition new_book (now : Clock.datetime) (book_data : BookData.t) (d : LibraryData)
    : Book.t :=
  let book_id := Z.of_nat (length (books d)) + 1 in
  Book.mk book_id
    (default ("T" +:+ pretty book_id) (BookData.s_no_code book_data))
    (BookData.title book_data) (BookData.author book_data)
    (BookData.isbn book_data) (BookData.category book_data)
    (BookData.publisher book_data) (BookData.publication_year book_data)
    (BookData.page_count book_data) (BookData.price book_data)
    (BookData.total_copies book_data) (BookData.total_copies book_data)
    (default EmptyString (BookData.shelf_location book_data))
    (default EmptyString (BookData.description book_data))
    (Clock.strftime_ymd now).

(** The ids of the catalog, in list order. *)
Definition catalog_ids (d : LibraryData) : list (option Z) :=
  map (λ l, Book.id <$> deref d l) (books d).

(** Two books added, the first deleted, a third added. *)
Definition add_delete_add : LibraryData :=
  let d1 := (add_book 0 (sample_data "Dune" "111" 1) empty_library).2 in
  let d2 := (add_book 0 (sample_data "Emma" "222" 1) d1).2 in
  let d3 := (delete_book 1 d2).2 in
  (add_book 0 (sample_data "Ulysses" "333" 1) d3).2.

(** The id and the two counts of each book of the catalog, in list order. *)
Definition catalog_counts (d : LibraryData) : list (option (Z * Z * Z)) :=
  map (λ l, (λ b, (Book.id b, Book.available_copies b, Book.total_copies b))
              <$> deref d l) (books d).

(** Two books added, the second issued, the first deleted, a third added:
    the second and the third book now share id 2. *)
Definition issued_then_renumbered : LibraryData :=
  let d0 := with_members [sample_member "M0001"] empty_library in
  let d1 := (add_book 0 (sample_data "Dune" "111" 1) d0).2 in
  let d2 := (add_book 0 (sample_data "Emma" "222" 1) d1).2 in
  let d3 := (issue_book new_TransactionManager 0 2 "M0001" d2).2 in
  let d4 := (delete_book 1 d3).2 in
  (add_book 0 (sample_data "Ulysses" "333" 1) d4).2.

(** One available copy of five, after four issues. *)
Definition one_of_five : LibraryData := (issue_times 4 0 1 "M0001" five_copies).2.

(** The entries of the edit dialog of "Dune" with [n] total copies. *)
Definition dune_form (n : Z) : EditForm :=
  mkForm "T1" "Author" "Dune" "" (Some 0) (Some 0) (Some n).

(** One copy of "Dune" on loan to Asha, four of five available. *)
Definition asha_has_dune : LibraryData :=
  with_admin_saves
    [AdminSave.mk "Asha" "" "Dune" "Author" (Clock.ISO 0) (Clock.ISO 14)
       (Clock.Malformed EmptyString) Transaction.issued]
    (issue_times 1 0 1 "M0001" five_copies).2.

Definition in_bounds (b : Book.t) : bool :=
  (0 <=? Book.available_copies b) && (Book.available_copies b <=? Book.total_copies b).

(** Invariant I1, as a test and as a proposition: every book of the
    catalog has its available copies between 0 and its total copies. *)
Definition I1_holds (d : LibraryData) : bool :=
  forallb (λ l, from_option in_bounds true (deref d l)) (books d).

Definition I1 (d : LibraryData) : Prop :=
  ∀ l b, l ∈ books d → deref d l = Some b →
    0 ≤ Book.available_copies b ≤ Book.total_copies b.

(** ** Python dictionaries, in insertion order *)

(** A dictionary with text keys as the list of its items in insertion
    order: assigning to a present key keeps its place, assigning to a new
    key appends, deleting an absent key raises. *)
Fixpoint dict_get {A} (k : string) (m : list (string * A)) : option A :=
  match m with
  | [] => None
  | (k', v) :: rest => if String.eqb k' k then Some v else dict_get k rest
  end.

Fixpoint dict_set {A} (k : string) (v : A) (m : list (string * A)) : list (string * A) :=
  match m with
  | [] => [(k, v)]
  | (k', v') :: rest =>
      if String.eqb k' k then (k', v) :: rest else (k', v') :: dict_set k v rest
  end.

Fixpoint dict_remove {A} (k : string) (m : list (string * A)) : list (string * A) :=
  match m with
  | [] => []
  | (k', v') :: rest =>
      if String.eqb k' k then rest else (k', v') :: dict_remove k rest
  end.

(** [del m[k]]: [None] stands for the [KeyError]. *)
Definition dict_del {A} (k : string) (m : list (string * A)) : option (list (string * A)) :=
  match dict_get k m with
  | Some _ => Some (dict_remove k m)
  | None => None
  end.

(** [min(m, key=m.get)] over the keys that follow a best key so far: the
    first key with the least value wins. *)
Fixpoint min_key_from (best : string) (least : Z) (m : list (string * Z)) : string :=
  match m with
  | [] => best
  | (k, v) :: rest =>
      if v <? least then min_key_from k v rest else min_key_from best least rest
  end.

(** [min(m, key=m.get)]: [None] stands for the [ValueError] on an empty
    dictionary. *)
Definition dict_min_key (m : list (string * Z)) : option string :=
  match m with
  | [] => None
  | (k, v) :: rest => Some (min_key_from k v rest)
  end.

(** ** FastCache *)

Module FastCache.

Record t (V : Type) := mk {
  cache : list (string * V);
  max_size : Z;
  access_count : list (string * Z)
}.

Arguments mk {V} _ _ _.
Arguments cache {V} _.
Arguments max_size {V} _.
Arguments access_count {V} _.

(** [FastCache(max_size)] *)
Definition new {V} (max_size : Z) : t V := mk [] max_size [].

(** [get(key)]: the value returned and the cache afterwards. *)
Definition get {V} (key : string) (c : t V) : option V * t V :=
  match dict_get key (cache c) with
  | Some v =>
      (Some v,
       mk (cache c) (max_size c)
          (dict_set key (default 0 (dict_get key (access_count c)) + 1)
             (access_count c)))
  | None => (None, c)
  end.

(** [set(key, value)]: [None] when the eviction raises, which leaves the
    cache as it was. *)
Definition set {V} (key : string) (value : V) (c : t V) : option (t V) :=
  if Z.of_nat (length (cache c)) >=? max_size c then
    lru_key ← dict_min_key (access_count c);
    cache1 ← dict_del lru_key (cache c);
    count1 ← dict_del lru_key (access_count c);
    Some (mk (dict_set key value cache1) (max_size c) (dict_set key 1 count1))
  else
    Some (mk (dict_set key value (cache c)) (max_size c)
            (dict_set key 1 (access_count c))).

(** [clear()] *)
Definition clear {V} (c : t V) : t V := mk [] (max_size c) [].

(** The two dictionaries hold the same keys in the same order. *)
Definition synced {V} (c : t V) : Prop :=
  map fst (cache c) = map fst (access_count c).

End FastCache.

(** ** The other lookups of the index *)

(** [book_lookup.get_by_isbn(isbn)] *)
Definition get_by_isbn (d : LibraryData) (isbn : string) : option ref :=
  FastBookLookup.by_isbn (book_lookup d) !! isbn.

(** [book_lookup.get_by_sno(sno)] *)
Definition get_by_sno (d : LibraryData) (sno : string) : option ref :=
  FastBookLookup.by_sno (book_lookup d) !! sno.

(** [book_lookup.get_by_title(title)]: the look-up is by the lowered title. *)
Definition get_by_title (d : LibraryData) (title : string) : option ref :=
  FastBookLookup.title_lower_map (book_lookup d) !! lower title.

(** The key under which [build_index] files a book in [by_id], in
    [by_isbn] and in [title_lower_map], if it files it at all. *)
Definition id_key (b : Book.t) : option Z :=
  if Book.id b =? 0 then None else Some (Book.id b).

Definition isbn_key (b : Book.t) : option string :=
  if truthy (Book.isbn b) then Some (Book.isbn b) else None.

Definition lower_title_key (b : Book.t) : option string :=
  if truthy (Book.title b) then Some (lower (Book.title b)) else None.

(** One dictionary of the index taken alone: the step of the loop of
    [build_index] for the dictionary keyed by [key]. *)
Definition file_under {K} `{Countable K} (key : Book.t → option K)
    (st : list Book.t) (m : gmap K ref) (l : ref) : gmap K ref :=
  match st !! l with
  | Some b => match key b with
              | Some k => <[k := l]> m
              | None => m
              end
  | None => m
  end.

(** [l] is the last reference of the list [bs] whose book is filed under
    the key [k]. *)
Definition last_under {K} (key : Book.t → option K) (st : list Book.t)
    (bs : list ref) (k : K) (l : ref) : Prop :=
  ∃ i b, bs !! i = Some l ∧ st !! l = Some b ∧ key b = Some k
         ∧ ∀ j l' b', (i < j)%nat → bs !! j = Some l' → st !! l' = Some b' →
                      key b' ≠ Some k.

(** ** Stock lists of StockManagementSystem *)

(** [[book for book in data.books if p(book)]] *)
Definition books_where (p : Book.t → bool) (d : LibraryData) : list ref :=
  List.filter (λ l, from_option p false (deref d l)) (books d).

(** [get_out_of_stock_books()] *)
Definition get_out_of_stock_books (s : StockManagementSystem) : list ref :=
  books_where (λ book, Book.available_copies book <=? 0) (data s).

(** [get_low_stock_books()] *)
Definition get_low_stock_books (s : StockManagementSystem) : list ref :=
  books_where (λ book, (0 <? Book.available_copies book)
                       && (Book.available_copies book <=? 3)) (data s).

(** [get_in_stock_books()] *)
Definition get_in_stock_books (s : StockManagementSystem) : list ref :=
  books_where (λ book, Book.available_copies book >? 3) (data s).

(** The four answers of [get_book_stock_status]. *)
Inductive StockStatus :=
| OUT_OF_STOCK
| LOW_STOCK
| IN_STOCK
| NOT_FOUND.

(** [get_book_stock_status(book_id)] *)
Definition get_book_stock_status (s : StockManagementSystem) (book_id : Z) : StockStatus :=
  match scan (data s) (has_id book_id) ≫= (λ il, deref (data s) il.2) with
  | Some book =>
      if Book.available_copies book <=? 0 then OUT_OF_STOCK
      else if Book.available_copies book <=? 3 then LOW_STOCK
      else IN_STOCK
  | None => NOT_FOUND
  end.

(** ** Overdue transactions *)

(** [{**transaction, "fine_amount": fine}] *)
Definition set_fine_amount (fine : Z) (t : Transaction.t) : Transaction.t :=
  Transaction.mk (Transaction.id t) (Transaction.book_id t) (Transaction.member_id t)
    (Transaction.issue_date t) (Transaction.due_date t) (Transaction.return_date t)
    (Transaction.status t) fine (Transaction.fine_paid t) (Transaction.renewals t).

(** An entry of the overdue list: the transaction with its fine, and the
    key [overdue_days]. *)
Record OverdueEntry := mkOverdue {
  overdue_transaction : Transaction.t;
  overdue_days : Z
}.

(** The body of the loop of [get_overdue_transactions] for one
    transaction: the entry appended, if any. *)
Definition overdue_entry (tm : TransactionManager) (today : Clock.datetime)
    (transaction : Transaction.t) : option OverdueEntry :=
  match Transaction.status transaction with
  | Transaction.issued =>
      match Clock.strptime_ymd (Transaction.due_date transaction) with
      | Some due_date =>
          if today >? due_date then
            let days_overdue := Clock.delta_days today due_date in
            let fine := days_overdue * daily_fine tm in
            Some (mkOverdue (set_fine_amount fine transaction) days_overdue)
          else None
      | None => None
      end
  | Transaction.returned => None
  end.

(** [get_overdue_transactions()]; [now] is the reading of the clock. *)
Definition get_overdue_transactions (tm : TransactionManager) (now : Clock.datetime)
    (d : LibraryData) : list OverdueEntry :=
  omap (overdue_entry tm now) (transactions d).

(** The transactions that are overdue at [now]: issued, with a due date
    that reads as a date whose midnight lies before [now]. *)
Definition past_due (now : Clock.datetime) (t : Transaction.t) : bool :=
  match Transaction.status t, Transaction.due_date t with
  | Transaction.issued, Clock.ISO dd => dd * Clock.day_us <? now
  | _, _ => false
  end.

(** ** The restock dialogs *)

(** What the book box of the restock dialog holds: nothing, a text that
    is not one of the options, or the text of the book behind [l]. *)
Inductive BookChoice :=
| no_text
| unknown_text
| chosen (l : ref).

(** The [perform_restock] closure of [restock_single_book_dialog];
    [quantity] is [int(quantity_var.get())], [None] when it raises.  The
    spinner is shown before the [try] in which [restock_book] is called. *)
Definition perform_restock (now : Clock.datetime) (choice : BookChoice)
    (quantity : option Z) (source notes : string) (s : StockManagementSystem)
    : list Dialog * StockManagementSystem :=
  match choice with
  | no_text => ([showerror "Error"], s)
  | unknown_text => ([showerror "Error"], s)
  | chosen l =>
      match quantity with
      | None => ([showerror "Error"], s)
      | Some quantity =>
          if quantity <=? 0 then ([showerror "Error"], s)
          else
            match deref (data s) l with
            | None => ([], s)
            | Some book =>
                match LoadingSpinner.show with
                | inl e => ([uncaught e], s)
                | inr _ =>
                    let '(success, _, s') :=
                      restock_book now (Book.id book) quantity source notes s in
                    if success then ([showinfo "Success"], s')
                    else ([showerror "Error"], s')
                end
            end
      end
  end.

(** The entry of the popup: blank after [strip()], or a text with what
    [int] makes of it. *)
Inductive QuantityText :=
| blank
| typed (quantity : option Z).

(** The [save_restock] closure of [restock_single_book_popup], opened on
    the book behind [l].  The spinner is shown before the [try] in which
    [restock_book] is called. *)
Definition save_restock (now : Clock.datetime) (l : ref) (quantity_text : QuantityText)
    (s : StockManagementSystem) : list Dialog * StockManagementSystem :=
  let checked :=
    match quantity_text with
    | blank => Some 1
    | typed (Some quantity) => if quantity <=? 0 then None else Some quantity
    | typed None => None
    end in
  match checked with
  | None => ([showerror "Error"], s)
  | Some quantity =>
      match deref (data s) l with
      | None => ([], s)
      | Some book =>
          match LoadingSpinner.show with
          | inl e => ([uncaught e], s)
          | inr _ =>
              let '(success, _, s') :=
                restock_book now (Book.id book) quantity "Manual Restock"
                  "Restocked from out of stock list" s in
              if success then ([showinfo "Success"], s')
              else ([showerror "Error"], s')
          end
      end
  end.

(** ** Counts of get_statistics *)

(** [sum(f(book) for book in data.books)] *)
Definition sum_books (f : Book.t → Z) (d : LibraryData) : Z :=
  fold_right (λ l acc, from_option f 0 (deref d l) + acc) 0 (books d).

(** The dictionary of [get_statistics], but for [today_admin_saves], which
    reads a column of the table that the model does not hold. *)
Record Statistics := mkStatistics {
  stat_total_books : Z;
  stat_total_copies : Z;
  stat_available_copies : Z;
  stat_borrowed_copies : Z;
  stat_categories : gmap string Z;
  stat_active_members : Z;
  stat_active_borrowings : Z;
  stat_total_members : Z;
  stat_admin_saves : Z;
  stat_active_borrowers_sqlite : Z
}.

Definition is_issued (t : Transaction.t) : bool :=
  match Transaction.status t with
  | Transaction.issued => true
  | Transaction.returned => false
  end.

Definition save_is_issued (r : AdminSave.t) : bool :=
  match AdminSave.status r with
  | Transaction.issued => true
  | Transaction.returned => false
  end.

(** [categories[cat] = categories.get(cat, 0) + 1], book by book. *)
Definition count_category (d : LibraryData) (categories : gmap string Z) (l : ref)
    : gmap string Z :=
  match deref d l with
  | Some book =>
      <[Book.category book := default 0 (categories !! Book.category book) + 1]>
        categories
  | None => categories
  end.

(** The dictionary that [get_statistics] builds when the cache does not
    answer. *)
Definition count_statistics (d : LibraryData) : Statistics :=
  let total_books := Z.of_nat (length (books d)) in
  let total_copies := sum_books Book.total_copies d in
  let available_copies := sum_books Book.available_copies d in
  let borrowed_copies := total_copies - available_copies in
  mkStatistics total_books total_copies available_copies borrowed_copies
    (fold_left (count_category d) (books d) ∅)
    (Z.of_nat (length (List.filter Member.active (members d))))
    (Z.of_nat (length (List.filter is_issued (transactions d))))
    (Z.of_nat (length (members d)))
    (Z.of_nat (length (admin_saves d)))
    (Z.of_nat (length (remove_dups
                         (map AdminSave.student_name
                            (List.filter save_is_issued (admin_saves d)))))).

(** What [data.book_cache] holds under its keys: a row of the table, a
    list of rows, a book dictionary, or the dictionary of the statistics. *)
Inductive Cached :=
| cached_save (row : AdminSave.t)
| cached_saves (rows : list AdminSave.t)
| cached_book (l : ref)
| cached_statistics (stats : Statistics).

(** [if cached:] a dictionary with keys is true, a list when it is not
    empty. *)
Definition cached_truthy (v : Cached) : bool :=
  match v with
  | cached_saves [] => false
  | _ => true
  end.

(** [get_statistics()]: what is returned and the cache afterwards; [None]
    when [book_cache.set] raises. *)
Definition get_statistics (book_cache : FastCache.t Cached) (d : LibraryData)
    : option (Cached * FastCache.t Cached) :=
  let cache_key := "library_stats" in
  let '(cached, cache1) := FastCache.get cache_key book_cache in
  if from_option cached_truthy false cached then
    (λ v, (v, cache1)) <$> cached
  else
    let stats := cached_statistics (count_statistics d) in
    (λ cache2, (stats, cache2)) <$> FastCache.set cache_key stats cache1.

(** ** DataChangeObserver *)

(** The observers are objects; they are told apart by a number. *)
Module DataChangeObserver.

(** [register_observer(observer)] *)
Definition register_observer (observer : nat) (observers : list nat) : list nat :=
  if bool_decide (observer ∈ observers) then observers else observers ++ [observer].

(** [list.remove(x)]: the first occurrence goes. *)
Fixpoint list_remove (x : nat) (xs : list nat) : list nat :=
  match xs with
  | [] => []
  | y :: rest => if Nat.eqb y x then rest else y :: list_remove x rest
  end.

(** [unregister_observer(observer)] *)
Definition unregister_observer (observer : nat) (observers : list nat) : list nat :=
  if bool_decide (observer ∈ observers) then list_remove observer observers
  else observers.

(** [notify_observers(change_type, data_id, data)]: the calls of
    [on_data_changed] made, in order, each with the observer called. *)
Definition notify_observers {E} (observers : list nat) (event : E) : list (nat * E) :=
  map (λ observer, (observer, event)) observers.

End DataChangeObserver.

(** * Properties *)

(** ** The store *)

Section Store.

Implicit Types (d : LibraryData) (l : ref) (b : Book.t).

Lemma deref_write_eq d l b b0 :
  deref d l = Some b0 → deref (write l b d) l = Some b.
Proof.
  unfold deref, write; simpl. intros H.
  apply list_lookup_insert_eq. by eapply lookup_lt_Some.
Qed.

Lemma deref_write_ne d l l' b :
  l ≠ l' → deref (write l b d) l' = deref d l'.
Proof. unfold deref, write; simpl. intros H. by apply list_lookup_insert_ne. Qed.

Lemma deref_write d l l' b b0 :
  deref d l = Some b0 →
  deref (write l b d) l' = if decide (l = l') then Some b else deref d l'.
Proof.
  intros H. case_decide as E.
  - subst l'. by eapply deref_write_eq.
  - by apply deref_write_ne.
Qed.

Lemma deref_alloc_old d b l b0 :
  deref d l = Some b0 → deref (alloc b d).2 l = Some b0.
Proof. unfold deref, alloc; simpl. intros H. by apply lookup_app_l_Some. Qed.

Lemma deref_alloc_new d b : deref (alloc b d).2 (alloc b d).1 = Some b.
Proof. unfold deref, alloc; simpl. apply list_lookup_middle. done. Qed.

End Store.

(** ** Scanning the catalog *)

Section Scan.

Variable p : Book.t → bool.

Lemma scan_from_Some st i bs j l :
  scan_from st p i bs = Some (j, l) →
  ∃ b, st !! l = Some b ∧ p b = true ∧ (i ≤ j)%nat ∧ bs !! (j - i)%nat = Some l.
Proof.
  revert i. induction bs as [|l0 rest IH]; intros i; simpl; [done|].
  destruct (st !! l0) as [b0|] eqn:E0.
  - destruct (p b0) eqn:Ep.
    + intros [= <- <-]. exists b0. rewrite Nat.sub_diag. by repeat split.
    + intros H. destruct (IH _ H) as (b & ? & ? & ? & Hl).
      exists b. repeat split; [done|done|lia|].
      replace (j - i)%nat with (S (j - S i)) by lia. done.
  - intros H. destruct (IH _ H) as (b & ? & ? & ? & Hl).
    exists b. repeat split; [done|done|lia|].
    replace (j - i)%nat with (S (j - S i)) by lia. done.
Qed.

Lemma scan_Some d i l :
  scan d p = Some (i, l) →
  ∃ b, deref d l = Some b ∧ p b = true ∧ books d !! i = Some l.
Proof.
  unfold scan. intros H. destruct (scan_from_Some _ _ _ _ _ H) as (b & ? & ? & ? & Hl).
  exists b. rewrite Nat.sub_0_r in Hl. by repeat split.
Qed.

(** The books before the one found do not satisfy the test. *)
Lemma scan_from_first st i bs j l :
  scan_from st p i bs = Some (j, l) →
  ∀ k l' b', (k < j - i)%nat → bs !! k = Some l' → st !! l' = Some b' → p b' = false.
Proof.
  revert i. induction bs as [|l0 rest IH]; intros i; simpl; [done|].
  destruct (st !! l0) as [b0|] eqn:E0.
  - destruct (p b0) eqn:Ep.
    + intros [= <- <-] k l' b' Hk. lia.
    + intros H k l' b' Hk Hl Hb. destruct k as [|k]; simpl in Hl.
      * injection Hl as <-. congruence.
      * eapply (IH _ H k); [|done|done].
        apply scan_from_Some in H as (_ & _ & _ & ? & _). lia.
  - intros H k l' b' Hk Hl Hb. destruct k as [|k]; simpl in Hl.
    + injection Hl as <-. congruence.
    + eapply (IH _ H k); [|done|done].
      apply scan_from_Some in H as (_ & _ & _ & ? & _). lia.
Qed.

(** The scan only looks at the test on the books of the list. *)
Lemma scan_from_ext st st' i bs :
  (∀ l, l ∈ bs → p <$> (st !! l) = p <$> (st' !! l)) →
  scan_from st p i bs = scan_from st' p i bs.
Proof.
  revert i. induction bs as [|l0 rest IH]; intros i H; simpl; [done|].
  pose proof (H l0 ltac:(left)) as H0.
  rewrite IH by (intros; apply H; by right).
  destruct (st !! l0), (st' !! l0); simpl in H0; try done.
  by injection H0 as ->.
Qed.

Lemma scan_from_None st i bs :
  scan_from st p i bs = None →
  ∀ l b, l ∈ bs → st !! l = Some b → p b = false.
Proof.
  revert i. induction bs as [|l0 rest IH]; intros i; simpl.
  - intros _ l b Hl. by apply elem_of_nil in Hl.
  - destruct (st !! l0) as [b0|] eqn:E0.
    + destruct (p b0) eqn:Ep; [done|].
      intros H l b Hl Hb. apply elem_of_cons in Hl as [->|Hl].
      * congruence.
      * by eapply IH.
    + intros H l b Hl Hb. apply elem_of_cons in Hl as [->|Hl].
      * congruence.
      * by eapply IH.
Qed.

End Scan.

(** ** Fines *)

Section Fines.

Import Clock.

Lemma day_us_pos : 0 < day_us.
Proof. reflexivity. Qed.

Lemma delta_days_midnight (t d : Z) : delta_days t (d * day_us) = t / day_us - d.
Proof.
  unfold delta_days.
  replace (t - d * day_us) with (t + (- d) * day_us) by lia.
  rewrite Z.div_add by (pose proof day_us_pos; lia). lia.
Qed.

Lemma fine_of_day tm (now d : Z) :
  calculate_fine tm now (ISO d) =
  if now >? d * day_us then (now / day_us - d) * daily_fine tm else 0.
Proof.
  unfold calculate_fine; simpl. destruct (now >? d * day_us); [|done].
  by rewrite delta_days_midnight.
Qed.

(** Past midnight of the due day, the day count is not negative. *)
Lemma overdue_days_nonneg (now d : Z) : d * day_us < now → 0 ≤ now / day_us - d.
Proof.
  intros H. pose proof day_us_pos.
  assert (d ≤ now / day_us); [|lia].
  apply Z.div_le_lower_bound; lia.
Qed.

Lemma fine_monotone_of_rate tm (due : DateText) (t1 t2 : Z) :
  0 ≤ daily_fine tm → t1 ≤ t2 →
  calculate_fine tm t1 due ≤ calculate_fine tm t2 due.
Proof.
  intros Hr H12. destruct due as [d|s]; [|done].
  rewrite !fine_of_day. pose proof day_us_pos.
  destruct (Z.gtb_spec t1 (d * day_us)), (Z.gtb_spec t2 (d * day_us)); try lia.
  - apply Z.mul_le_mono_nonneg_r; [done|].
    assert (t1 / day_us ≤ t2 / day_us) by (apply Z.div_le_mono; lia). lia.
  - apply Z.mul_nonneg_nonneg; [|done]. by apply overdue_days_nonneg.
Qed.

End Fines.

(** C9.  For a fixed due date the fine never decreases as the day of
    reckoning moves forward; it is 0 at any moment up to midnight of the
    due date and during the whole due day; past the due date it is the
    number of whole days between the two dates times the daily rate,
    whatever the time of day. *)
Theorem calculate_fine_monotone (due : Clock.DateText) (d t1 t2 asOf : Z)
    (H12 : t1 ≤ t2) :
  calculate_fine new_TransactionManager t1 due
    ≤ calculate_fine new_TransactionManager t2 due
  ∧ (asOf ≤ d * Clock.day_us →
     calculate_fine new_TransactionManager asOf (Clock.ISO d) = 0)
  ∧ (Clock.strftime_ymd asOf = Clock.ISO d →
     calculate_fine new_TransactionManager asOf (Clock.ISO d) = 0)
  ∧ (d * Clock.day_us < asOf →
     calculate_fine new_TransactionManager asOf (Clock.ISO d)
     = (asOf / Clock.day_us - d) * 10).
Proof.
  split; [by apply fine_monotone_of_rate|].
  rewrite fine_of_day. repeat split.
  - intros H. destruct (Z.gtb_spec asOf (d * Clock.day_us)); [lia|done].
  - intros [= H]. destruct (asOf >? d * Clock.day_us); [|done]. simpl. lia.
  - intros H. destruct (Z.gtb_spec asOf (d * Clock.day_us)); [done|lia].
Qed.

Lemma calculate_fine_monotone_witness :
  calculate_fine new_TransactionManager (20 * Clock.day_us + 5) (Clock.ISO 18) = 20
  ∧ calculate_fine new_TransactionManager (18 * Clock.day_us + 5) (Clock.ISO 18)
    ≤ calculate_fine new_TransactionManager (20 * Clock.day_us + 5) (Clock.ISO 18).
Proof.
  split.
  - apply (calculate_fine_monotone (Clock.ISO 18) 18 0 1 (20 * Clock.day_us + 5)
             ltac:(lia)).
    reflexivity.
  - apply (calculate_fine_monotone (Clock.ISO 18) 18 (18 * Clock.day_us + 5)
             (20 * Clock.day_us + 5) 0 ltac:(vm_compute; discriminate)).
Defined.

(** ** Restocking *)

Lemma has_id_true book_id b : has_id book_id b = true ↔ Book.id b = book_id.
Proof. unfold has_id. apply Z.eqb_eq. Qed.

Lemma has_isbn_true isbn b : has_isbn isbn b = true ↔ Book.isbn b = isbn.
Proof. unfold has_isbn. apply String.eqb_eq. Qed.

Lemma has_title_true title b : has_title title b = true ↔ Book.title b = title.
Proof. unfold has_title. apply String.eqb_eq. Qed.

Lemma restock_ref_data now action source notes quantity l book s :
  data (restock_ref now action source notes quantity l book s)
  = write l (restocked quantity book) (data s).
Proof. reflexivity. Qed.

Lemma restock_ref_history now action source notes quantity l book s :
  stock_history (restock_ref now action source notes quantity l book s)
  = stock_history s ++
      [history_record now action source notes quantity
         (Book.available_copies book) (Book.total_copies book)
         (restocked quantity book) (stock_history s)].
Proof. reflexivity. Qed.

(** C7.  For a book that the catalog holds under [book_id] and a positive
    quantity, [restock_book] succeeds, raises the available and the total
    copies of that book by the quantity and so keeps the copies on loan,
    touches no other book, and appends one history record with the
    quantity and the counts before and after. *)
Theorem restock_book_adds_quantity (now : Clock.datetime) (book_id quantity : Z)
    (source notes : string) (s : StockManagementSystem) (i : nat) (l : ref)
    (Hfound : scan (data s) (has_id book_id) = Some (i, l))
    (Hq : 0 < quantity) :
  ∃ book book' s' r,
    deref (data s) l = Some book ∧ Book.id book = book_id
    ∧ restock_book now book_id quantity source notes s = (true, Some l, s')
    ∧ deref (data s') l = Some book'
    ∧ Book.available_copies book' = Book.available_copies book + quantity
    ∧ Book.total_copies book' = Book.total_copies book + quantity
    ∧ Book.issued book' = Book.issued book
    ∧ (∀ l', l' ≠ l → deref (data s') l' = deref (data s) l')
    ∧ books (data s') = books (data s)
    ∧ stock_history s' = stock_history s ++ [r]
    ∧ StockRecord.action r = StockRecord.restock
    ∧ StockRecord.book_id r = book_id
    ∧ StockRecord.quantity_added r = quantity
    ∧ StockRecord.old_stock r = Book.available_copies book
    ∧ StockRecord.new_stock r = Book.available_copies book + quantity
    ∧ StockRecord.old_total r = Book.total_copies book
    ∧ StockRecord.new_total r = Book.total_copies book + quantity.
Proof.
  destruct (scan_Some _ _ _ _ Hfound) as (book & Hb & Hid & _).
  apply has_id_true in Hid.
  exists book, (restocked quantity book). eexists. eexists.
  split; [done|]. split; [done|].
  split; [unfold restock_book; rewrite Hfound, Hb; reflexivity|].
  rewrite restock_ref_data, restock_ref_history.
  split; [by eapply deref_write_eq|].
  split; [done|]. split; [done|].
  split; [unfold Book.issued; simpl; lia|].
  split; [intros l' Hl'; by apply deref_write_ne|].
  split; [done|]. split; [done|].
  simpl. by repeat split.
Qed.

Lemma restock_book_adds_quantity_witness :
  let s0 := mkStock (add_book 0 (sample_data "Dune" "111" 5) empty_library).2 [] in
  let s1 := mkStock (write 0%nat
                       (Book.set_available_copies 0
                          (Book.mk 1 "T1" "Dune" "Author" "111" "General" "" "2024"
                             0 0 5 5 "" "" (Clock.ISO 0))) (data s0)) [] in
  ∃ book' s' r,
    restock_book 0 1 3 "Purchase" "" s1 = (true, Some 0%nat, s')
    ∧ deref (data s') 0%nat = Some book'
    ∧ Book.available_copies book' = 3
    ∧ Book.total_copies book' = 8
    ∧ stock_history s' = [r]
    ∧ StockRecord.quantity_added r = 3.
Proof.
  intros s0 s1.
  destruct (restock_book_adds_quantity 0 1 3 "Purchase" "" s1 0%nat 0%nat
              eq_refl eq_refl)
    as (book & book' & s' & r & Hb & _ & Hr & Hb' & Ha & Ht & _ & _ & _ & Hh & _ & _ & Hqa & _).
  exists book', s', r.
  injection Hb as <-.
  repeat split; assumption.
Defined.

(** ** Bulk restocking, row by row *)

Lemma same_keys_write d l book book' :
  deref d l = Some book →
  Book.isbn book = Book.isbn book' → Book.title book = Book.title book' →
  same_keys d (write l book' d).
Proof.
  intros Hb Hi Ht. split; [done|]. intros l0.
  rewrite (deref_write _ _ _ _ _ Hb). case_decide as E.
  - subst l0. by rewrite Hb.
  - by destruct (deref d l0).
Qed.

Lemma find_isbn_same_keys d d' isbn :
  same_keys d d' →
  fst <$> find_isbn d' isbn = fst <$> find_isbn d isbn
  ∧ (Book.title ∘ snd) <$> find_isbn d' isbn = (Book.title ∘ snd) <$> find_isbn d isbn.
Proof.
  intros [Hbs Hk]. unfold find_isbn, scan. rewrite <- Hbs.
  rewrite (scan_from_ext (has_isbn isbn) (store d) (store d') 0 (books d)).
  2:{ intros l _. specialize (Hk l). unfold deref in Hk.
      destruct (store d !! l), (store d' !! l); simpl; try done.
      unfold has_isbn. destruct Hk as [-> _]. done. }
  destruct (scan_from (store d') (has_isbn isbn) 0 (books d)) as [[i l]|]; [|done].
  simpl. specialize (Hk l).
  destruct (deref d l), (deref d' l); simpl; try done.
  destruct Hk as [_ ->]. done.
Qed.

Lemma find_isbn_cases d d' isbn :
  same_keys d d' →
  match find_isbn d isbn, find_isbn d' isbn with
  | Some (l, b), Some (l', b') => l = l' ∧ Book.title b = Book.title b'
  | None, None => True
  | _, _ => False
  end.
Proof.
  intros H. destruct (find_isbn_same_keys d d' isbn H) as [H1 H2].
  destruct (find_isbn d isbn) as [[l b]|], (find_isbn d' isbn) as [[l' b']|];
    simpl in *; try done.
  split; congruence.
Qed.

Lemma skipped_of_same_keys d d' rows :
  same_keys d d' → skipped_of d' rows = skipped_of d rows.
Proof.
  intros H. induction rows as [|[isbn q] rest IH]; simpl; [done|].
  pose proof (find_isbn_cases d d' isbn H) as Hc.
  destruct (find_isbn d isbn) as [[l b]|], (find_isbn d' isbn) as [[l' b']|];
    try done; by rewrite IH.
Qed.

Lemma restocked_of_same_keys d d' rows :
  same_keys d d' → restocked_of d' rows = restocked_of d rows.
Proof.
  intros H. induction rows as [|[isbn q] rest IH]; simpl; [done|].
  pose proof (find_isbn_cases d d' isbn H) as Hc.
  destruct (find_isbn d isbn) as [[l b]|], (find_isbn d' isbn) as [[l' b']|];
    try done.
  destruct Hc as [_ ->]. by rewrite IH.
Qed.

Lemma added_to_same_keys d d' l rows :
  same_keys d d' → added_to d' l rows = added_to d l rows.
Proof.
  intros H. induction rows as [|[isbn q] rest IH]; simpl; [done|].
  pose proof (find_isbn_cases d d' isbn H) as Hc.
  destruct (find_isbn d isbn) as [[l1 b]|], (find_isbn d' isbn) as [[l1' b']|];
    try done.
  destruct Hc as [-> _]. by rewrite IH.
Qed.

Lemma find_isbn_Some d isbn l book :
  find_isbn d isbn = Some (l, book) → deref d l = Some book ∧ Book.isbn book = isbn.
Proof.
  unfold find_isbn. destruct (scan d (has_isbn isbn)) as [[i l0]|] eqn:E; [|done].
  destruct (scan_Some _ _ _ _ E) as (b & Hb & Hp & _).
  simpl. rewrite Hb. simpl. intros [= <- <-]. split; [done|].
  by apply has_isbn_true.
Qed.

Lemma bulk_row_found now s sm isbn quantity l book :
  find_isbn (data s) isbn = Some (l, book) →
  bulk_row now (s, sm) (isbn, quantity)
  = (restock_ref now StockRecord.bulk_restock "Excel Import"
       "Bulk restock from Excel file" quantity l book s,
     mkSummary (restocked_books sm ++ [Book.title book]) (skipped_books sm)).
Proof. unfold find_isbn, bulk_row. by intros ->. Qed.

Lemma bulk_row_missing now s sm isbn quantity :
  find_isbn (data s) isbn = None →
  bulk_row now (s, sm) (isbn, quantity)
  = (s, mkSummary (restocked_books sm) (skipped_books sm ++ [isbn])).
Proof. unfold find_isbn, bulk_row. by intros ->. Qed.

(** The loop over the rows does what the rows ask for. *)
Lemma bulk_rows_fold now rows : ∀ s sm s' sm',
  fold_left (bulk_row now) rows (s, sm) = (s', sm') →
  skipped_books sm' = skipped_books sm ++ skipped_of (data s) rows
  ∧ restocked_books sm' = restocked_books sm ++ restocked_of (data s) rows
  ∧ same_keys (data s) (data s')
  ∧ (∀ l book, deref (data s) l = Some book →
       ∃ book', deref (data s') l = Some book'
         ∧ Book.available_copies book'
           = Book.available_copies book + added_to (data s) l rows
         ∧ Book.total_copies book'
           = Book.total_copies book + added_to (data s) l rows)
  ∧ length (stock_history s')
    = (length (stock_history s) + length (restocked_of (data s) rows))%nat.
Proof.
  induction rows as [|[isbn q] rest IH]; intros s sm s' sm';
    cbn [fold_left skipped_of restocked_of added_to].
  - intros [= <- <-]. rewrite !app_nil_r.
    split; [done|]. split; [done|].
    split; [split; [done|]; intros l; by destruct (deref (data s) l)|].
    split; [|simpl; lia]. intros l book Hb. exists book. split; [done|lia].
  - destruct (find_isbn (data s) isbn) as [[l0 book0]|] eqn:Ef.
    + rewrite (bulk_row_found _ _ _ _ _ _ _ Ef). intros Hfold.
      destruct (find_isbn_Some _ _ _ _ Ef) as [Hb0 _].
      apply IH in Hfold as (Hs & Hr & Hk & Hst & Hh).
      rewrite restock_ref_data in *. rewrite restock_ref_history in Hh.
      assert (same_keys (data s) (write l0 (restocked q book0) (data s))) as Hk0
        by (by apply (same_keys_write _ _ book0)).
      rewrite (skipped_of_same_keys _ _ _ Hk0) in Hs.
      rewrite (restocked_of_same_keys _ _ _ Hk0) in Hr, Hh.
      simpl in Hr. rewrite <- app_assoc in Hr. simpl in Hr.
      split; [done|]. split; [done|].
      split.
      { destruct Hk0 as [Hb1 Hk1], Hk as [Hb2 Hk2]. split; [congruence|].
        intros l. specialize (Hk1 l). specialize (Hk2 l).
        destruct (deref (data s) l), (deref (write l0 (restocked q book0) (data s)) l),
          (deref (data s') l); try done.
        destruct Hk1, Hk2. split; congruence. }
      split.
      { intros l book Hb.
        pose proof (deref_write (data s) l0 l (restocked q book0) _ Hb0) as Hw.
        case_decide as E.
        - subst l. rewrite Hb in Hb0. injection Hb0 as <-.
          destruct (Hst _ _ Hw) as (book' & Hb' & Ha & Ht).
          exists book'. rewrite (added_to_same_keys _ _ _ _ Hk0) in Ha, Ht.
          simpl in Ha, Ht. split; [done|]. lia.
        - rewrite Hb in Hw.
          destruct (Hst _ _ Hw) as (book' & Hb' & Ha & Ht).
          exists book'. rewrite (added_to_same_keys _ _ _ _ Hk0) in Ha, Ht.
          split; [done|]. lia. }
      rewrite length_app in Hh. simpl in *. lia.
    + rewrite (bulk_row_missing _ _ _ _ _ Ef). intros Hfold.
      apply IH in Hfold as (Hs & Hr & Hk & Hst & Hh). simpl in *.
      rewrite <- app_assoc in Hs. done.
Qed.

Lemma find_isbn_None d isbn :
  find_isbn d isbn = None
  ↔ ∀ l b, l ∈ books d → deref d l = Some b → Book.isbn b ≠ isbn.
Proof.
  unfold find_isbn. split.
  - destruct (scan d (has_isbn isbn)) as [[i l0]|] eqn:E.
    + destruct (scan_Some _ _ _ _ E) as (b0 & Hb0 & _). simpl. by rewrite Hb0.
    + intros _ l b Hl Hb Hi.
      pose proof (scan_from_None _ _ _ _ E l b Hl Hb) as Hp.
      apply has_isbn_true in Hi. congruence.
  - intros H. destruct (scan d (has_isbn isbn)) as [[i l0]|] eqn:E; [|done].
    destruct (scan_Some _ _ _ _ E) as (b0 & Hb0 & Hp & Hl).
    exfalso. apply (H l0 b0); [by eapply list_elem_of_lookup_2|done|].
    by apply has_isbn_true.
Qed.

(** C8.  The bulk restock never fails on an unknown isbn.  It returns
    [True]; the skipped list is the isbns of the rows that match no book of
    the catalog, in row order; the restocked list is the titles of the
    books of the other rows; and every book ends with its available and
    total copies raised by the quantities of exactly the rows whose isbn
    finds it.  With two unknown isbns among five rows, the three known
    books are restocked and the two unknown isbns are skipped. *)
Theorem bulk_restock_rows_independent :
  (∀ (now : Clock.datetime) (rows : list (string * Z)) (s : StockManagementSystem),
     ∃ sm s',
       bulk_restock_from_excel now rows s = (true, sm, s')
       ∧ skipped_books sm = skipped_of (data s) rows
       ∧ restocked_books sm = restocked_of (data s) rows
       ∧ books (data s') = books (data s)
       ∧ (∀ l book, deref (data s) l = Some book →
            ∃ book', deref (data s') l = Some book'
              ∧ Book.available_copies book'
                = Book.available_copies book + added_to (data s) l rows
              ∧ Book.total_copies book'
                = Book.total_copies book + added_to (data s) l rows)
       ∧ length (stock_history s')
         = (length (stock_history s) + length (restocked_of (data s) rows))%nat)
  ∧ (∀ (d : LibraryData) (isbn : string),
       find_isbn d isbn = None
       ↔ ∀ l b, l ∈ books d → deref d l = Some b → Book.isbn b ≠ isbn)
  ∧ (let '(ok, sm, s') := bulk_restock_from_excel 0 five_rows three_books in
     ok = true
     ∧ restocked_books sm = ["Dune"; "Emma"; "Ulysses"]
     ∧ skipped_books sm = ["999"; "888"]
     ∧ map Book.available_copies (store (data s')) = [3; 4; 5]
     ∧ map Book.total_copies (store (data s')) = [3; 4; 5]
     ∧ map StockRecord.quantity_added (stock_history s') = [1; 2; 3]).
Proof.
  split; [|split; [apply find_isbn_None|by vm_compute]].
  intros now rows s. unfold bulk_restock_from_excel.
  destruct (fold_left (bulk_row now) rows (s, mkSummary [] [])) as [s' sm] eqn:E.
  exists sm, s'. apply bulk_rows_fold in E as (Hs & Hr & [Hbs _] & Hst & Hh).
  simpl in Hs, Hr. by repeat split.
Qed.

(** ** Issuing *)


Lemma update_first_member_absent member_id delta ms :
  Forall (λ m', Member.id m' ≠ member_id) ms →
  update_first_member member_id delta ms = (false, ms).
Proof.
  intros H. induction H as [|m0 ms Hm0 _ IH]; simpl; [done|].
  apply String.eqb_neq in Hm0. by rewrite Hm0, IH.
Qed.



(** The state that a successful [issue_book] leaves. *)
Lemma issue_book_available tm now book_id member_id d l book :
  get_by_id d book_id = Some l → deref d l = Some book →
  0 < Book.available_copies book →
  issue_book tm now book_id member_id d
  = (true,
     Book_issued_successfully (Clock.strftime_ymd (Clock.plus_days now (loan_period tm))),
     let d1 := write l (Book.set_available_copies (Book.available_copies book - 1) book) d in
     let d2 := (update_borrow_count member_id 1 d1).2 in
     with_transactions
       (transactions d2 ++
          [Transaction.mk (Z.of_nat (length (transactions d)) + 1) book_id member_id
             (Clock.strftime_ymd now)
             (Clock.strftime_ymd (Clock.plus_days now (loan_period tm)))
             (Clock.Malformed EmptyString) Transaction.issued 0 false 0]) d2).
Proof.
  intros Hg Hb Ha. unfold issue_book. rewrite Hg. simpl. rewrite Hb. simpl.
  destruct (Z.leb_spec (Book.available_copies book) 0); [lia|].
  unfold update_borrow_count. simpl.
  by destruct (update_first_member member_id 1 (members d)).
Qed.

Lemma issue_book_unavailable tm now book_id member_id d l book :
  get_by_id d book_id = Some l → deref d l = Some book →
  Book.available_copies book ≤ 0 →
  issue_book tm now book_id member_id d = (false, Book_not_available, d).
Proof.
  intros Hg Hb Ha. unfold issue_book. rewrite Hg. simpl. rewrite Hb. simpl.
  by destruct (Z.leb_spec (Book.available_copies book) 0); [|lia].
Qed.



(** ** Identifiers of new books *)

Lemma build_index_snoc st bs l :
  build_index st (bs ++ [l]) = index_ref st (build_index st bs) l.
Proof. unfold build_index. by rewrite fold_left_app. Qed.

Lemma by_id_index_ref st ix l b :
  st !! l = Some b → Book.id b ≠ 0 →
  FastBookLookup.by_id (index_ref st ix l) !! Book.id b = Some l.
Proof.
  intros Hb Hid. unfold index_ref. rewrite Hb. simpl.
  destruct (Z.eqb_spec (Book.id b) 0); [done|]. apply lookup_insert_eq.
Qed.

Lemma add_book_state now book_data d :
  add_book now book_data d
  = (Z.of_nat (length (books d)) + 1,
     rebuild (with_books (books d ++ [length (store d)])
                (with_store (store d ++ [new_book now book_data d]) d))).
Proof. reflexivity. Qed.

Lemma add_book_deref_new now book_data d :
  deref (add_book now book_data d).2 (length (store d))
  = Some (new_book now book_data d).
Proof. rewrite add_book_state. unfold deref; simpl. by apply list_lookup_middle. Qed.

Lemma add_book_deref_old now book_data d l b :
  deref d l = Some b → deref (add_book now book_data d).2 l = Some b.
Proof. rewrite add_book_state. unfold deref; simpl. apply lookup_app_l_Some. Qed.

Lemma add_book_get_by_id now book_data d :
  get_by_id (add_book now book_data d).2 (Z.of_nat (length (books d)) + 1)
  = Some (length (store d)).
Proof.
  rewrite add_book_state. unfold get_by_id, rebuild; simpl.
  rewrite build_index_snoc.
  apply (by_id_index_ref _ _ _ (new_book now book_data d)).
  - by apply list_lookup_middle.
  - simpl. lia.
Qed.

Lemma delete_book_removes d book_id i l book :
  scan d (has_id book_id) = Some (i, l) → deref d l = Some book →
  Book.total_copies book ≤ Book.available_copies book →
  delete_book book_id d = (true, [], rebuild (with_books (delete i (books d)) d)).
Proof.
  intros Hs Hb Hc. unfold delete_book. rewrite Hs, Hb.
  by destruct (Z.ltb_spec (Book.available_copies book) (Book.total_copies book)); [lia|].
Qed.

Lemma delete_book_blocked d book_id i l book :
  scan d (has_id book_id) = Some (i, l) → deref d l = Some book →
  Book.available_copies book < Book.total_copies book →
  delete_book book_id d = (false, [showerror "Cannot Delete"], d).
Proof.
  intros Hs Hb Hc. unfold delete_book. rewrite Hs, Hb.
  by destruct (Z.ltb_spec (Book.available_copies book) (Book.total_copies book)); [|lia].
Qed.

(** C10.  [add_book] returns, and gives the new book, the number of books
    in the catalog plus one.  So whenever a book of the catalog already has
    that id, the catalog afterwards holds two different books with it, and
    the index resolves the id to the new one only.  Such a state follows
    from deleting any book but the last of a catalog whose last book is
    numbered with the length of the catalog, for instance the first of two
    added books: there the third book gets id 2 although the largest id
    in use is 2. *)
Theorem add_book_id_is_catalog_length_plus_one :
  (∀ now book_data d,
     (add_book now book_data d).1 = Z.of_nat (length (books d)) + 1
     ∧ books (add_book now book_data d).2 = books d ++ [length (store d)]
     ∧ ∃ b, deref (add_book now book_data d).2 (length (store d)) = Some b
          ∧ Book.id b = Z.of_nat (length (books d)) + 1
          ∧ Book.total_copies b = BookData.total_copies book_data
          ∧ Book.available_copies b = BookData.total_copies book_data)
  ∧ (∀ now book_data d l b,
       l ∈ books d → deref d l = Some b →
       Book.id b = Z.of_nat (length (books d)) + 1 →
       let d' := (add_book now book_data d).2 in
       let new := length (store d) in
       l ≠ new ∧ l ∈ books d' ∧ new ∈ books d'
       ∧ deref d' l = Some b
       ∧ (∃ b', deref d' new = Some b' ∧ Book.id b' = Book.id b)
       ∧ get_by_id d' (Book.id b) = Some new
       ∧ get_by_id d' (Book.id b) ≠ Some l)
  ∧ (∀ d book_id i l book last_ref last_book,
       scan d (has_id book_id) = Some (i, l) → deref d l = Some book →
       Book.total_copies book ≤ Book.available_copies book →
       (S i < length (books d))%nat →
       last (books d) = Some last_ref → deref d last_ref = Some last_book →
       Book.id last_book = Z.of_nat (length (books d)) →
       let '(ok, _, d1) := delete_book book_id d in
       ok = true ∧ last_ref ∈ books d1 ∧ deref d1 last_ref = Some last_book
       ∧ Book.id last_book = Z.of_nat (length (books d1)) + 1)
  ∧ (catalog_ids add_delete_add = [Some 2; Some 2]
     ∧ books add_delete_add = [1%nat; 2%nat]
     ∧ get_by_id add_delete_add 2 = Some 2%nat).
Proof.
  split; [|split; [|split; [|by vm_compute]]].
  - intros now book_data d.
    split; [reflexivity|]. split; [reflexivity|].
    exists (new_book now book_data d). by rewrite add_book_deref_new.
  - intros now book_data d l b Hl Hb Hid d' new. subst d' new.
    assert (l ≠ length (store d)) as Hne.
    { apply lookup_lt_Some in Hb. lia. }
    split; [done|].
    assert (books (add_book now book_data d).2 = books d ++ [length (store d)]) as ->
      by reflexivity.
    split; [apply elem_of_app; by left|].
    split; [apply elem_of_app; right; by left|].
    split; [by apply add_book_deref_old|].
    split; [exists (new_book now book_data d); by rewrite add_book_deref_new|].
    rewrite Hid, add_book_get_by_id. split; [done|]. congruence.
  - intros d book_id i l book last_ref last_book Hs Hb Hc Hi Hlast Hlb Hid.
    rewrite (delete_book_removes _ _ _ _ _ Hs Hb Hc).
    split; [done|]. simpl.
    rewrite last_lookup in Hlast.
    split.
    { apply (list_elem_of_lookup_2 _ (pred (length (books d)) - 1)%nat).
      rewrite list_lookup_delete_ge by lia.
      rewrite <- Hlast. f_equal. lia. }
    split; [done|].
    rewrite length_delete, Hid; [lia|].
    apply lookup_lt_is_Some. lia.
Qed.

(** ** Deleting *)

(** C6.  [delete_book] refuses a book with copies on loan and removes one
    without.  [delete_selected_books] checks the book that the index
    gives for an id and then removes the first book of the list with that
    id: in a catalog where the issued "Emma" and the fully available
    "Ulysses" share id 2, deleting id 2 succeeds and removes "Emma",
    which has a copy on loan. *)
Theorem delete_selected_books_removes_issued_book :
  catalog_counts issued_then_renumbered = [Some (2, 0, 1); Some (2, 1, 1)]
  ∧ map (λ l, Book.title <$> deref issued_then_renumbered l)
      (books issued_then_renumbered) = [Some "Emma"; Some "Ulysses"]
  ∧ (let '(ok, dialogs, d') := delete_book 2 issued_then_renumbered in
     ok = false ∧ dialogs = [showerror "Cannot Delete"]
     ∧ books d' = books issued_then_renumbered)
  ∧ (let '(ok, dialogs, d') := delete_selected_books [2] issued_then_renumbered in
     ok = true ∧ dialogs = [showinfo "Success"]
     ∧ catalog_counts d' = [Some (2, 1, 1)]
     ∧ map (λ l, Book.title <$> deref d' l) (books d') = [Some "Ulysses"]).
Proof. by vm_compute. Qed.

(** ** Updating *)

Lemma book_at_write d i l b b0 :
  books d !! i = Some l → deref d l = Some b0 → book_at (write l b d) i = Some b.
Proof.
  intros Hi Hl. unfold book_at. simpl. rewrite Hi. simpl. by eapply deref_write_eq.
Qed.

(** Whatever the new total, [update_book] leaves the book as the
    overwrite of the fields made it: the old total is read after the
    overwrite, through the same dictionary, so it equals the new one. *)
Lemma update_book_is_overwrite d book_id updated_data i l book :
  scan d (has_id book_id) = Some (i, l) → deref d l = Some book →
  update_book book_id updated_data d
  = (true, rebuild (write l (BookUpdate.overwrite updated_data book) d)).
Proof.
  intros Hs Hb. unfold update_book. rewrite Hs, Hb.
  destruct (BookUpdate.total_copies updated_data) as [new_total|] eqn:Et; [|done].
  unfold adjust_copies.
  destruct (scan_Some _ _ _ _ Hs) as (_ & _ & _ & Hi).
  rewrite (book_at_write _ _ _ _ _ Hi Hb), (deref_write_eq _ _ _ _ Hb).
  assert (Book.total_copies (BookUpdate.overwrite updated_data book) = new_total) as ->
    by (simpl; by rewrite Et).
  destruct (Z.gtb_spec new_total new_total); [lia|].
  by destruct (Z.ltb_spec new_total new_total); [lia|].
Qed.

(** C5.  [update_book] with only a new total: from one available copy of
    five, raising the total to 8 leaves one copy available (not four), and
    from five available of five, lowering the total to 2 leaves five
    available, above the new total. *)
Theorem update_book_total_leaves_available :
  catalog_counts one_of_five = [Some (1, 1, 5)]
  ∧ (let '(ok, d') := update_book 1 (BookUpdate.only_total_copies 8) one_of_five in
     ok = true ∧ catalog_counts d' = [Some (1, 1, 8)])
  ∧ catalog_counts five_copies = [Some (1, 5, 5)]
  ∧ (let '(ok, d') := update_book 1 (BookUpdate.only_total_copies 2) five_copies in
     ok = true ∧ catalog_counts d' = [Some (1, 5, 2)]).
Proof. by vm_compute. Qed.

(** C4, as the code has it.  [update_book] takes any new total: on a book
    with one available copy of five it returns [True] for a total of 2 and
    stores it. *)
Lemma update_book_accepts_total_below_issued :
  catalog_counts one_of_five = [Some (1, 1, 5)]
  ∧ (let '(ok, d') := update_book 1 (BookUpdate.only_total_copies 2) one_of_five in
     ok = true ∧ catalog_counts d' = [Some (1, 1, 2)]).
Proof. by vm_compute. Qed.

(** C4, amended.  A total below the copies on loan is refused by the edit
    dialog, before [update_book] is called: the dialog shows an error and
    the state stays as it was, whatever the other entries.  [update_book]
    itself refuses nothing: for an id of the catalog it returns [True] and
    the book has the total it was given. *)
Theorem edit_dialog_rejects_total_below_issued :
  (∀ d l book form n,
     deref d l = Some book → form_total_copies form = Some n →
     n < Book.total_copies book - Book.available_copies book →
     edit_book_update l form d = ([showerror "Error"], d))
  ∧ (∀ d book_id updated_data i l book n,
       scan d (has_id book_id) = Some (i, l) → deref d l = Some book →
       BookUpdate.total_copies updated_data = Some n →
       ∃ d' book',
         update_book book_id updated_data d = (true, d')
         ∧ deref d' l = Some book'
         ∧ Book.total_copies book' = n)
  ∧ (edit_book_update 0%nat (dune_form 2) one_of_five = ([showerror "Error"], one_of_five)).
Proof.
  split; [|split; [|by vm_compute]].
  - intros d l book form n Hb Hn Hlt. unfold edit_book_update. rewrite Hb, Hn.
    destruct (negb (truthy (form_sno form))); [done|].
    destruct (negb (truthy (form_author form))); [done|].
    destruct (negb (truthy (form_title form))); [done|].
    destruct (n <? 1); [done|].
    by destruct (Z.ltb_spec n (Book.total_copies book - Book.available_copies book));
      [|lia].
  - intros d book_id updated_data i l book n Hs Hb Hn.
    rewrite (update_book_is_overwrite _ _ _ _ _ _ Hs Hb).
    eexists. eexists. split; [reflexivity|].
    split; [by apply (deref_write_eq d _ _ book)|].
    simpl. by rewrite Hn.
Qed.

Lemma edit_dialog_rejects_total_below_issued_witness :
  edit_book_update 0%nat (dune_form 3) one_of_five = ([showerror "Error"], one_of_five).
Proof.
  apply (proj1 edit_dialog_rejects_total_below_issued one_of_five 0%nat
           (Book.mk 1 "T1" "Dune" "Author" "111" "General" "" "2024"
              0 0 5 1 "" "" (Clock.ISO 0)) (dune_form 3) 3).
  - reflexivity.
  - reflexivity.
  - reflexivity.
Defined.

(** ** The spinner and the return action *)

(** The module never imports [time]: the first turn of the animation
    raises, so [show] never returns. *)
Lemma LoadingSpinner_show_raises : LoadingSpinner.show = inl (NameError "time").
Proof. reflexivity. Qed.

Lemma mark_as_returned_state now selection confirmed d :
  mark_as_returned now selection confirmed d
  = match selection with
    | None => ([showwarning "Warning"], d)
    | Some values =>
        if bool_decide (5 ≤ length values)%nat then
          if confirmed then ([uncaught (NameError "time")], d) else ([], d)
        else ([uncaught IndexError], d)
    end.
Proof.
  unfold mark_as_returned. rewrite LoadingSpinner_show_raises.
  destruct selection as [values|]; [|done].
  by destruct values as [|v0 [|v1 [|v2 [|v3 [|v4 rest]]]]].
Qed.

Lemma length_borrower_row today row : length (borrower_row today row) = 8%nat.
Proof.
  unfold borrower_row.
  destruct (Clock.strptime_ymd (AdminSave.due_date row)) as [due_date|]; [|done].
  simpl. destruct (Clock.delta_days due_date today <? 0); [done|].
  by destruct (Clock.delta_days due_date today =? 0).
Qed.

(** C2.  Asha has one of the five copies of "Dune".  The screen shows the
    loan as a row whose third value is the title and whose fifth value,
    the one the return action reads as the title, is the issue date.  When
    the return is confirmed the callback ends with the [NameError] of the
    spinner, before the table and the stock are reached: the row is still
    issued and four copies are available, not five.  A second call does
    the same. *)
Theorem mark_as_returned_leaves_the_loan_issued :
  map (borrower_row 0) (admin_saves asha_has_dune)
  = [["Asha"; "N/A"; "Dune"; "Author"; "1970-01-01"; "1970-01-15"; "14 days"; "Active"]]
  ∧ catalog_counts asha_has_dune = [Some (1, 4, 5)]
  ∧ map AdminSave.status (admin_saves asha_has_dune) = [Transaction.issued]
  ∧ (let row := ["Asha"; "N/A"; "Dune"; "Author"; "1970-01-01"; "1970-01-15";
                 "14 days"; "Active"] in
     let '(shown, d1) := mark_as_returned 0 (Some row) true asha_has_dune in
     shown = [uncaught (NameError "time")]
     ∧ catalog_counts d1 = [Some (1, 4, 5)]
     ∧ map AdminSave.status (admin_saves d1) = [Transaction.issued]
     ∧ transactions d1 = transactions asha_has_dune
     ∧ members d1 = members asha_has_dune
     ∧ (mark_as_returned 0 (Some row) true d1).1 = [uncaught (NameError "time")]
     ∧ catalog_counts (mark_as_returned 0 (Some row) true d1).2 = [Some (1, 4, 5)]).
Proof.
  split; [by vm_compute|]. split; [by vm_compute|]. split; [by vm_compute|].
  cbv zeta. rewrite !mark_as_returned_state. simpl.
  repeat split; by vm_compute.
Qed.

(** ** The stock invariant *)

Lemma I1_holds_spec d : I1_holds d = true ↔ I1 d.
Proof.
  unfold I1_holds, I1. rewrite forallb_forall. split.
  - intros H l b Hl Hb. apply list_elem_of_In in Hl. specialize (H l Hl).
    rewrite Hb in H. simpl in H. unfold in_bounds in H.
    apply andb_true_iff in H as [H1 H2]. lia.
  - intros H l Hl. apply list_elem_of_In in Hl.
    destruct (deref d l) as [b|] eqn:Hb; [|done]. simpl.
    specialize (H l b Hl Hb). unfold in_bounds. apply andb_true_iff. lia.
Qed.

Section Invariant.

Implicit Types (d : LibraryData) (l : ref) (b : Book.t).

(** The invariant reads the store and the catalog list only, and is kept
    when books leave the list. *)
Lemma I1_sub d d' :
  store d' = store d → (∀ l, l ∈ books d' → l ∈ books d) → I1 d → I1 d'.
Proof.
  intros Hst Hbs H l b Hl Hb. apply (H l b); [by apply Hbs|].
  unfold deref in *. by rewrite <- Hst.
Qed.

Lemma I1_write d l b b0 :
  I1 d → deref d l = Some b0 →
  (l ∈ books d → 0 ≤ Book.available_copies b ≤ Book.total_copies b) →
  I1 (write l b d).
Proof.
  intros H Hb0 Hb l' b' Hl' Hb'.
  rewrite (deref_write _ _ _ _ _ Hb0) in Hb'. case_decide as E.
  - subst l'. injection Hb' as <-. by apply Hb.
  - by apply (H l' b').
Qed.

Lemma I1_add_book now book_data d :
  0 ≤ BookData.total_copies book_data → I1 d → I1 (add_book now book_data d).2.
Proof.
  intros Ht H l b Hl Hb. rewrite add_book_state in Hl, Hb.
  unfold deref in Hb. simpl in Hl, Hb.
  destruct (decide (l < length (store d))%nat) as [Hlt|Hge].
  - rewrite lookup_app_l in Hb by done.
    apply elem_of_app in Hl as [Hl|Hl]; [by apply (H l b)|].
    apply list_elem_of_singleton in Hl. lia.
  - destruct (decide (l = length (store d))) as [->|Hne].
    + rewrite list_lookup_middle in Hb by done. injection Hb as <-. simpl. lia.
    + rewrite lookup_ge_None_2 in Hb; [done|]. rewrite length_app. simpl. lia.
Qed.

Lemma I1_issue_book tm now book_id member_id d :
  I1 d → I1 (issue_book tm now book_id member_id d).2.
Proof.
  intros H. destruct (get_by_id d book_id) as [l|] eqn:Hg.
  2:{ unfold issue_book. by rewrite Hg. }
  destruct (deref d l) as [book|] eqn:Hb.
  2:{ unfold issue_book. rewrite Hg. simpl. by rewrite Hb. }
  destruct (Z_lt_le_dec 0 (Book.available_copies book)) as [Ha|Ha].
  - rewrite (issue_book_available _ _ _ _ _ _ _ Hg Hb Ha). simpl.
    apply (I1_sub (write l (Book.set_available_copies
                              (Book.available_copies book - 1) book) d)).
    + unfold update_borrow_count. simpl.
      by destruct (update_first_member member_id 1 (members d)).
    + unfold update_borrow_count. simpl.
      by destruct (update_first_member member_id 1 (members d)).
    + apply (I1_write _ _ _ book); [done|done|].
      intros Hl. specialize (H l book Hl Hb). simpl. lia.
  - by rewrite (issue_book_unavailable _ _ _ _ _ _ _ Hg Hb Ha).
Qed.

Lemma I1_restock_ref now action source notes quantity l book s :
  0 ≤ quantity → deref (data s) l = Some book → I1 (data s) →
  I1 (data (restock_ref now action source notes quantity l book s)).
Proof.
  intros Hq Hb H. rewrite restock_ref_data.
  apply (I1_write _ _ _ book); [done|done|].
  intros Hl. specialize (H l book Hl Hb). simpl. lia.
Qed.

Lemma I1_restock_book now book_id quantity source notes s :
  0 ≤ quantity → I1 (data s) →
  I1 (data (restock_book now book_id quantity source notes s).2).
Proof.
  intros Hq H. unfold restock_book.
  destruct (scan (data s) (has_id book_id)) as [[i l]|]; [|done].
  destruct (deref (data s) l) as [book|] eqn:Hb; [|done].
  by apply I1_restock_ref.
Qed.

Lemma I1_bulk_rows now rows : ∀ s sm,
  Forall (λ row : string * Z, 0 ≤ row.2) rows → I1 (data s) →
  I1 (data (fold_left (bulk_row now) rows (s, sm)).1).
Proof.
  induction rows as [|[isbn q] rest IH]; intros s sm Hq H; [done|].
  apply Forall_cons in Hq as [Hq Hrest]. cbn [fold_left].
  destruct (find_isbn (data s) isbn) as [[l book]|] eqn:Ef.
  - rewrite (bulk_row_found _ _ _ _ _ _ _ Ef). apply IH; [done|].
    destruct (find_isbn_Some _ _ _ _ Ef) as [Hb _]. by apply I1_restock_ref.
  - rewrite (bulk_row_missing _ _ _ _ _ Ef). by apply IH.
Qed.

Lemma I1_bulk_restock now rows s :
  Forall (λ row : string * Z, 0 ≤ row.2) rows → I1 (data s) →
  I1 (data (bulk_restock_from_excel now rows s).2).
Proof.
  intros Hq H. unfold bulk_restock_from_excel.
  pose proof (I1_bulk_rows now rows s (mkSummary [] []) Hq H) as H'.
  by destruct (fold_left (bulk_row now) rows (s, mkSummary [] [])).
Qed.

Lemma I1_delete_book book_id d : I1 d → I1 (delete_book book_id d).2.
Proof.
  intros H. unfold delete_book.
  destruct (scan d (has_id book_id)) as [[i l]|]; [|done].
  destruct (deref d l) as [book|]; [|done].
  destruct (Book.available_copies book <? Book.total_copies book); [done|].
  simpl. apply (I1_sub d); [done| |done].
  intros l'. simpl. apply list_elem_of_delete_inv.
Qed.

Lemma delete_first_sub d l :
  store (delete_first_with_id_of d l) = store d
  ∧ ∀ l', l' ∈ books (delete_first_with_id_of d l) → l' ∈ books d.
Proof.
  unfold delete_first_with_id_of.
  destruct (deref d l) as [book|]; [|done].
  destruct (scan d (has_id (Book.id book))) as [[i l0]|]; [|done].
  split; [done|]. intros l'. simpl. apply list_elem_of_delete_inv.
Qed.

Lemma delete_all_sub ls : ∀ d,
  store (fold_left delete_first_with_id_of ls d) = store d
  ∧ ∀ l', l' ∈ books (fold_left delete_first_with_id_of ls d) → l' ∈ books d.
Proof.
  induction ls as [|l rest IH]; intros d; [done|]. cbn [fold_left].
  destruct (IH (delete_first_with_id_of d l)) as [Hs Hb].
  destruct (delete_first_sub d l) as [Hs0 Hb0].
  split; [congruence|]. intros l' Hl'. by apply Hb0, Hb.
Qed.

Lemma I1_delete_selected_books book_ids d :
  I1 d → I1 (delete_selected_books book_ids d).2.
Proof.
  intros H. unfold delete_selected_books.
  destruct (check_selected d book_ids) as [to_delete with_issues].
  destruct (delete_all_sub to_delete d) as [Hs Hb].
  assert (I1 (rebuild (fold_left delete_first_with_id_of to_delete d))) as H'
    by (by apply (I1_sub d)).
  destruct with_issues, to_delete; done.
Qed.

End Invariant.

(** C1.  A catalog with five available copies of five keeps the invariant;
    [update_book] with a total of 2 returns [True] and leaves five
    available copies of two, so the invariant no longer holds. *)
Theorem update_book_leaves_available_above_total :
  catalog_counts five_copies = [Some (1, 5, 5)]
  ∧ I1_holds five_copies = true
  ∧ (let '(ok, d') := update_book 1 (BookUpdate.only_total_copies 2) five_copies in
     ok = true
     ∧ catalog_counts d' = [Some (1, 5, 2)]
     ∧ I1_holds d' = false).
Proof. by vm_compute. Qed.

(** X17.  From a state where every book of the catalog has
    0 <= available <= total, the same holds after [add_book] of a total
    that is not negative, after [issue_book], after [restock_book] and
    the bulk restock of quantities that are not negative, after
    [delete_book], after [delete_selected_books] and after the return
    action.  A negative total or quantity can break it. *)
Theorem I1_kept_by_add_issue_restock_delete (d : LibraryData) (HI : I1 d) :
  (∀ now book_data,
     0 ≤ BookData.total_copies book_data → I1 (add_book now book_data d).2)
  ∧ (∀ tm now book_id member_id, I1 (issue_book tm now book_id member_id d).2)
  ∧ (∀ now book_id quantity source notes history,
       0 ≤ quantity →
       I1 (data (restock_book now book_id quantity source notes
                   (mkStock d history)).2))
  ∧ (∀ now rows history,
       Forall (λ row : string * Z, 0 ≤ row.2) rows →
       I1 (data (bulk_restock_from_excel now rows (mkStock d history)).2))
  ∧ (∀ book_id, I1 (delete_book book_id d).2)
  ∧ (∀ book_ids, I1 (delete_selected_books book_ids d).2)
  ∧ (∀ now selection confirmed, I1 (mark_as_returned now selection confirmed d).2)
  ∧ I1_holds (add_book 0 (sample_data "Dune" "111" (-1)) empty_library).2 = false
  ∧ I1_holds (data (restock_book 0 1 (-6) "" "" (mkStock five_copies [])).2) = false
  ∧ I1_holds (data (bulk_restock_from_excel 0 [("111", -6)]
                      (mkStock five_copies [])).2) = false.
Proof.
  split; [intros; by apply I1_add_book|].
  split; [intros; by apply I1_issue_book|].
  split; [intros; by apply I1_restock_book|].
  split; [intros; by apply I1_bulk_restock|].
  split; [intros; by apply I1_delete_book|].
  split; [intros; by apply I1_delete_selected_books|].
  split.
  { intros now selection confirmed. rewrite mark_as_returned_state.
    destruct selection as [values|]; [|done].
    destruct (bool_decide (5 ≤ length values)%nat); [|done].
    by destruct confirmed. }
  by vm_compute.
Qed.

Lemma I1_kept_by_add_issue_restock_delete_witness :
  I1_holds five_copies = true
  ∧ I1 (issue_book new_TransactionManager 0 1 "M0001" five_copies).2
  ∧ I1 (delete_selected_books [1] five_copies).2.
Proof.
  split; [reflexivity|].
  pose proof (I1_kept_by_add_issue_restock_delete five_copies
                (proj1 (I1_holds_spec five_copies) eq_refl))
    as (_ & Hissue & _ & _ & _ & Hdelete & _).
  split; [apply Hissue|apply Hdelete].
Defined.

(** ** Dictionaries and the cache *)

Section Dict.

Context {A : Type}.
Implicit Types (m : list (string * A)) (k : string).

Lemma dict_get_set_eq k (v : A) m : dict_get k (dict_set k v m) = Some v.
Proof.
  induction m as [|[k' v'] rest IH]; simpl.
  - by rewrite String.eqb_refl.
  - destruct (String.eqb k' k) eqn:E; simpl; by rewrite E.
Qed.

Lemma dict_get_set_ne k k' (v : A) m :
  k ≠ k' → dict_get k' (dict_set k v m) = dict_get k' m.
Proof.
  intros Hne. induction m as [|[k0 v0] rest IH]; simpl.
  - apply String.eqb_neq in Hne. by rewrite Hne.
  - destruct (String.eqb k0 k) eqn:E; simpl; [|by rewrite IH].
    apply String.eqb_eq in E. subst k0.
    apply String.eqb_neq in Hne. by rewrite Hne.
Qed.

Lemma dict_get_remove_ne k k' m :
  k ≠ k' → dict_get k' (dict_remove k m) = dict_get k' m.
Proof.
  intros Hne. induction m as [|[k0 v0] rest IH]; simpl; [done|].
  destruct (String.eqb k0 k) eqn:E; simpl; [|by rewrite IH].
  apply String.eqb_eq in E. subst k0.
  apply String.eqb_neq in Hne. by rewrite Hne.
Qed.

Lemma dict_get_Some_keys k m : is_Some (dict_get k m) ↔ k ∈ map fst m.
Proof.
  induction m as [|[k0 v0] rest IH]; simpl.
  - split; [by intros [? ?]|by intros ?%elem_of_nil].
  - destruct (String.eqb_spec k0 k) as [->|Hne].
    + split; [intros _; by left|by eexists].
    + rewrite IH. split; [by right|].
      intros [?|?]%elem_of_cons; [congruence|done].
Qed.

Lemma length_dict_set_le k (v : A) m :
  (length (dict_set k v m) ≤ S (length m))%nat.
Proof.
  induction m as [|[k0 v0] rest IH]; simpl; [lia|].
  destruct (String.eqb k0 k); simpl; lia.
Qed.

Lemma length_dict_set_present k (v : A) m :
  is_Some (dict_get k m) → length (dict_set k v m) = length m.
Proof.
  induction m as [|[k0 v0] rest IH]; simpl; [by intros [? ?]|].
  destruct (String.eqb k0 k); simpl; [done|]. intros H. by rewrite IH.
Qed.

Lemma length_dict_remove k m :
  is_Some (dict_get k m) → S (length (dict_remove k m)) = length m.
Proof.
  induction m as [|[k0 v0] rest IH]; simpl; [by intros [? ?]|].
  destruct (String.eqb k0 k); simpl; [done|]. intros H. by rewrite IH.
Qed.

Lemma keys_dict_set_inv k (v : A) m x :
  x ∈ map fst (dict_set k v m) → x = k ∨ x ∈ map fst m.
Proof.
  induction m as [|[k0 v0] rest IH]; simpl.
  - intros ?%list_elem_of_singleton. by left.
  - destruct (String.eqb k0 k); simpl; [by right|].
    intros [->|H]%elem_of_cons; [right; by left|].
    destruct (IH H); [by left|right; by right].
Qed.

Lemma keys_dict_remove_inv k m x :
  x ∈ map fst (dict_remove k m) → x ∈ map fst m.
Proof.
  induction m as [|[k0 v0] rest IH]; simpl; [done|].
  destruct (String.eqb k0 k); simpl; [by right|].
  intros [->|H]%elem_of_cons; [by left|right; by apply IH].
Qed.

Lemma NoDup_dict_set k (v : A) m :
  NoDup (map fst m) → NoDup (map fst (dict_set k v m)).
Proof.
  induction m as [|[k0 v0] rest IH]; simpl.
  - intros _. apply NoDup_singleton.
  - intros [Hk0 Hrest]%NoDup_cons.
    destruct (String.eqb_spec k0 k) as [->|Hne]; simpl; [by apply NoDup_cons|].
    apply NoDup_cons. split; [|by apply IH].
    intros [?|?]%keys_dict_set_inv; [congruence|done].
Qed.

Lemma NoDup_dict_remove k m :
  NoDup (map fst m) → NoDup (map fst (dict_remove k m)).
Proof.
  induction m as [|[k0 v0] rest IH]; simpl; [done|].
  intros [Hk0 Hrest]%NoDup_cons.
  destruct (String.eqb k0 k); simpl; [done|].
  apply NoDup_cons. split; [|by apply IH].
  by intros ?%keys_dict_remove_inv.
Qed.

Lemma dict_get_remove_eq k m :
  NoDup (map fst m) → dict_get k (dict_remove k m) = None.
Proof.
  induction m as [|[k0 v0] rest IH]; simpl; [done|].
  intros [Hk0 Hrest]%NoDup_cons.
  destruct (String.eqb_spec k0 k) as [->|Hne]; simpl.
  - destruct (dict_get k rest) eqn:E; [|done].
    exfalso. apply Hk0, dict_get_Some_keys. by eexists.
  - apply String.eqb_neq in Hne. rewrite Hne. by apply IH.
Qed.

End Dict.

(** Assigning or deleting the same key in two dictionaries with the same
    keys leaves them with the same keys. *)
Lemma keys_dict_set {A B} k (v : A) (w : B) m1 m2 :
  map fst m1 = map fst m2 → map fst (dict_set k v m1) = map fst (dict_set k w m2).
Proof.
  revert m2. induction m1 as [|[k1 v1] r1 IH]; intros [|[k2 v2] r2]; simpl; try done.
  intros [= -> H]. destruct (String.eqb k2 k); simpl; [by rewrite H|].
  f_equal. by apply IH.
Qed.

Lemma keys_dict_remove {A B} k (m1 : list (string * A)) (m2 : list (string * B)) :
  map fst m1 = map fst m2 → map fst (dict_remove k m1) = map fst (dict_remove k m2).
Proof.
  revert m2. induction m1 as [|[k1 v1] r1 IH]; intros [|[k2 v2] r2]; simpl; try done.
  intros [= -> H]. destruct (String.eqb k2 k); simpl; [done|].
  f_equal. by apply IH.
Qed.

(** The key that [min] picks is a key of the dictionary and no key has a
    smaller value. *)
Lemma min_key_from_spec best least m :
  let k := min_key_from best least m in
  (k = best ∨ k ∈ map fst m)
  ∧ ∃ v, (k = best ∧ v = least ∨ (k, v) ∈ m) ∧ v ≤ least ∧ ∀ k' v', (k', v') ∈ m → v ≤ v'.
Proof.
  revert best least. induction m as [|[k0 v0] rest IH]; intros best least; simpl.
  - split; [by left|]. exists least. split; [by left|]. split; [lia|].
    intros k' v' H. by apply elem_of_nil in H.
  - destruct (Z.ltb_spec v0 least) as [Hlt|Hge].
    + destruct (IH k0 v0) as [Hk (v & Hv & Hle & Hmin)].
      split.
      { right. destruct Hk as [->|Hk]; [by left|by right]. }
      exists v. split.
      { right. destruct Hv as [[-> ->]|Hv]; [by left|by right]. }
      split; [lia|]. intros k' v' [[= -> ->]|H]%elem_of_cons; [done|by eapply Hmin].
    + destruct (IH best least) as [Hk (v & Hv & Hle & Hmin)].
      split.
      { destruct Hk as [->|Hk]; [by left|right; by right]. }
      exists v. split.
      { destruct Hv as [[-> ->]|Hv]; [by left|right; by right]. }
      split; [done|]. intros k' v' [[= -> ->]|H]%elem_of_cons; [lia|by eapply Hmin].
Qed.

Lemma dict_min_key_spec m k :
  dict_min_key m = Some k →
  k ∈ map fst m ∧ ∃ v, (k, v) ∈ m ∧ ∀ k' v', (k', v') ∈ m → v ≤ v'.
Proof.
  destruct m as [|[k0 v0] rest]; simpl; [done|]. intros [= <-].
  destruct (min_key_from_spec k0 v0 rest) as [Hk (v & Hv & Hle & Hmin)].
  split.
  { destruct Hk as [->|Hk]; [by left|by right]. }
  exists v. split.
  { destruct Hv as [[-> ->]|Hv]; [by left|by right]. }
  intros k' v' [[= -> ->]|H]%elem_of_cons; [done|by eapply Hmin].
Qed.

(** What [set] does to a cache whose two dictionaries agree on the keys:
    below capacity it only assigns; at capacity it first drops the key
    that [min] picks. *)
Lemma FastCache_set_synced {V} key (value : V) (c : FastCache.t V) :
  FastCache.synced c →
  (Z.of_nat (length (FastCache.cache c)) < FastCache.max_size c →
   FastCache.set key value c
   = Some (FastCache.mk (dict_set key value (FastCache.cache c)) (FastCache.max_size c)
             (dict_set key 1 (FastCache.access_count c))))
  ∧ (FastCache.max_size c ≤ Z.of_nat (length (FastCache.cache c)) →
     FastCache.cache c ≠ [] →
     ∃ lru_key,
       dict_min_key (FastCache.access_count c) = Some lru_key
       ∧ is_Some (dict_get lru_key (FastCache.cache c))
       ∧ FastCache.set key value c
         = Some (FastCache.mk
                   (dict_set key value (dict_remove lru_key (FastCache.cache c)))
                   (FastCache.max_size c)
                   (dict_set key 1 (dict_remove lru_key (FastCache.access_count c))))).
Proof.
  intros Hs. unfold FastCache.set. split.
  - intros Hlt.
    by destruct (Z.geb_spec (Z.of_nat (length (FastCache.cache c))) (FastCache.max_size c));
      [lia|].
  - intros Hge Hne.
    destruct (Z.geb_spec (Z.of_nat (length (FastCache.cache c))) (FastCache.max_size c));
      [|lia].
    destruct (dict_min_key (FastCache.access_count c)) as [lru|] eqn:Em.
    2:{ exfalso. unfold FastCache.synced in Hs.
        destruct (FastCache.access_count c) as [|[k0 v0] r]; simpl in Em; [|discriminate].
        destruct (FastCache.cache c); [done|simpl in Hs; discriminate]. }
    exists lru. split; [done|].
    destruct (dict_min_key_spec _ _ Em) as [Hk _].
    assert (is_Some (dict_get lru (FastCache.access_count c))) as [n Hn]
      by (by apply dict_get_Some_keys).
    assert (is_Some (dict_get lru (FastCache.cache c))) as [v Hv].
    { apply dict_get_Some_keys. unfold FastCache.synced in Hs. by rewrite Hs. }
    split; [by eexists|]. simpl. unfold dict_del. by rewrite Hv, Hn.
Qed.

(** X1.  A value stored with [set] is what the next [get] of the key
    returns, whatever was evicted to make room, and that [get] changes no
    stored value. *)
Theorem FastCache_get_after_set {V} (key : string) (value : V) (c c' : FastCache.t V)
    (Hset : FastCache.set key value c = Some c') :
  (FastCache.get key c').1 = Some value
  ∧ FastCache.cache (FastCache.get key c').2 = FastCache.cache c'
  ∧ FastCache.max_size c' = FastCache.max_size c.
Proof.
  assert (dict_get key (FastCache.cache c') = Some value
          ∧ FastCache.max_size c' = FastCache.max_size c) as [Hg Hm].
  { unfold FastCache.set in Hset.
    destruct (Z.of_nat (length (FastCache.cache c)) >=? FastCache.max_size c).
    - destruct (dict_min_key (FastCache.access_count c)) as [lru|]; [|done].
      simpl in Hset.
      destruct (dict_del lru (FastCache.cache c)) as [cache1|]; [|done].
      simpl in Hset.
      destruct (dict_del lru (FastCache.access_count c)) as [count1|]; [|done].
      injection Hset as <-. simpl. by rewrite dict_get_set_eq.
    - injection Hset as <-. simpl. by rewrite dict_get_set_eq. }
  unfold FastCache.get. rewrite Hg. by simpl.
Qed.

Lemma FastCache_get_after_set_witness :
  (FastCache.get "book_2"
     (FastCache.mk [("book_2", 7%nat)] 1 [("book_2", 1)])).1 = Some 7%nat.
Proof.
  apply (FastCache_get_after_set "book_2" 7%nat
           (FastCache.mk [("book_1", 5%nat)] 1 [("book_1", 3)])
           (FastCache.mk [("book_2", 7%nat)] 1 [("book_2", 1)])).
  reflexivity.
Defined.

(** X2.  A cache of capacity at least 1 whose two dictionaries agree on
    the keys and that holds at most [max_size] entries accepts every
    [set], and afterwards again agrees on the keys and holds at most
    [max_size] entries. *)
Theorem FastCache_set_keeps_capacity {V} (key : string) (value : V) (c : FastCache.t V)
    (Hsync : FastCache.synced c)
    (Hcap : 1 ≤ FastCache.max_size c)
    (Hlen : Z.of_nat (length (FastCache.cache c)) ≤ FastCache.max_size c) :
  ∃ c', FastCache.set key value c = Some c'
        ∧ FastCache.synced c'
        ∧ Z.of_nat (length (FastCache.cache c')) ≤ FastCache.max_size c'
        ∧ (NoDup (map fst (FastCache.cache c)) → NoDup (map fst (FastCache.cache c'))).
Proof.
  destruct (FastCache_set_synced key value c Hsync) as [Hbelow Hfull].
  destruct (Z_lt_le_dec (Z.of_nat (length (FastCache.cache c))) (FastCache.max_size c))
    as [Hlt|Hge].
  - eexists. split; [by apply Hbelow|]. split.
    + unfold FastCache.synced. simpl. by apply keys_dict_set.
    + split; [|simpl; apply NoDup_dict_set].
      simpl. pose proof (length_dict_set_le key value (FastCache.cache c)). lia.
  - assert (FastCache.cache c ≠ []) as Hne.
    { intros E. rewrite E in Hge. simpl in Hge. lia. }
    destruct (Hfull Hge Hne) as (lru & _ & Hin & ->).
    eexists. split; [done|]. split.
    + unfold FastCache.synced. simpl. by apply keys_dict_set, keys_dict_remove.
    + split; [|simpl; intros; by apply NoDup_dict_set, NoDup_dict_remove].
      simpl.
      pose proof (length_dict_set_le key value (dict_remove lru (FastCache.cache c))).
      pose proof (length_dict_remove lru (FastCache.cache c) Hin). lia.
Qed.

Lemma FastCache_set_keeps_capacity_witness :
  ∃ c', FastCache.set "book_3" 9%nat
          (FastCache.mk [("book_1", 5%nat); ("book_2", 7%nat)] 2
             [("book_1", 3); ("book_2", 1)]) = Some c'
        ∧ FastCache.synced c'
        ∧ Z.of_nat (length (FastCache.cache c')) ≤ FastCache.max_size c'
        ∧ (NoDup (map fst [("book_1", 5%nat); ("book_2", 7%nat)])
           → NoDup (map fst (FastCache.cache c'))).
Proof.
  apply (FastCache_set_keeps_capacity "book_3" 9%nat
           (FastCache.mk [("book_1", 5%nat); ("book_2", 7%nat)] 2
              [("book_1", 3); ("book_2", 1)])).
  - reflexivity.
  - simpl. lia.
  - simpl. lia.
Defined.

(** X3.  At capacity, [set] drops exactly one key before it stores: a key
    with the least access count.  Every other key keeps its value, also
    when the key stored was already in the cache, so that storing a
    present key in a full cache leaves it with one entry fewer.  On an
    empty cache of capacity 0 or less [set] raises. *)
Theorem FastCache_set_evicts_least_used {V} (key : string) (value : V) (c : FastCache.t V)
    (Hsync : FastCache.synced c)
    (Hkeys : NoDup (map fst (FastCache.cache c)))
    (Hfull : FastCache.max_size c ≤ Z.of_nat (length (FastCache.cache c))) :
  (FastCache.cache c = [] → FastCache.set key value c = None)
  ∧ (FastCache.cache c ≠ [] →
     ∃ lru_key n c',
       FastCache.set key value c = Some c'
       ∧ (lru_key, n) ∈ FastCache.access_count c
       ∧ (∀ k' n', (k', n') ∈ FastCache.access_count c → n ≤ n')
       ∧ (lru_key ≠ key → dict_get lru_key (FastCache.cache c') = None)
       ∧ (∀ k', k' ≠ lru_key → k' ≠ key →
            dict_get k' (FastCache.cache c') = dict_get k' (FastCache.cache c))
       ∧ (lru_key ≠ key → is_Some (dict_get key (FastCache.cache c)) →
            S (length (FastCache.cache c')) = length (FastCache.cache c))).
Proof.
  split.
  - intros E. unfold FastCache.set.
    destruct (Z.geb_spec (Z.of_nat (length (FastCache.cache c))) (FastCache.max_size c));
      [|lia].
    unfold FastCache.synced in Hsync. rewrite E in Hsync.
    by destruct (FastCache.access_count c).
  - intros Hne.
    destruct (FastCache_set_synced key value c Hsync) as [_ H].
    destruct (H Hfull Hne) as (lru & Hmin & Hin & Hset).
    destruct (dict_min_key_spec _ _ Hmin) as [_ (n & Hn & Hleast)].
    exists lru, n. eexists. split; [done|]. split; [done|]. split; [done|]. simpl.
    split.
    { intros Hk. rewrite dict_get_set_ne by done. by apply dict_get_remove_eq. }
    split.
    { intros k' H1 H2. rewrite dict_get_set_ne by done. by apply dict_get_remove_ne. }
    intros Hk Hpresent.
    rewrite length_dict_set_present.
    + by apply length_dict_remove.
    + by rewrite dict_get_remove_ne.
Qed.

Lemma FastCache_set_evicts_least_used_witness :
  let c := FastCache.mk [("book_1", 5%nat); ("book_2", 7%nat)] 2
             [("book_1", 3); ("book_2", 1)] in
  ∃ lru_key n c',
    FastCache.set "book_1" 6%nat c = Some c'
    ∧ (lru_key, n) ∈ FastCache.access_count c
    ∧ (∀ k' n', (k', n') ∈ FastCache.access_count c → n ≤ n')
    ∧ (lru_key ≠ "book_1" → dict_get lru_key (FastCache.cache c') = None)
    ∧ (∀ k', k' ≠ lru_key → k' ≠ "book_1" →
         dict_get k' (FastCache.cache c') = dict_get k' (FastCache.cache c))
    ∧ (lru_key ≠ "book_1" → is_Some (dict_get "book_1" (FastCache.cache c)) →
         S (length (FastCache.cache c')) = length (FastCache.cache c)).
Proof.
  intros c.
  apply (FastCache_set_evicts_least_used "book_1" 6%nat c).
  - reflexivity.
  - simpl. apply NoDup_cons. split; [by intros ?%list_elem_of_singleton|].
    apply NoDup_singleton.
  - simpl. lia.
  - discriminate.
Defined.
(** ** The index after a rebuild *)

Section Keyed.

Context {K : Type} `{Countable K}.
Variable key : Book.t → option K.
Variable st : list Book.t.

Lemma file_under_snoc bs l (m : gmap K ref) :
  fold_left (file_under key st) (bs ++ [l]) m
  = file_under key st (fold_left (file_under key st) bs m) l.
Proof. by rewrite fold_left_app. Qed.

Lemma last_under_snoc_hit bs x b k l :
  st !! x = Some b → key b = Some k →
  last_under key st (bs ++ [x]) k l ↔ l = x.
Proof.
  intros Hb Hk. split.
  - intros (i & b0 & Hi & Hb0 & Hk0 & Hlast).
    destruct (decide (i < length bs)%nat) as [Hlt|Hge].
    + exfalso. apply (Hlast (length bs) x b); [done| |done|done].
      by apply list_lookup_middle.
    + apply lookup_lt_Some in Hi as Hi'. rewrite length_app in Hi'. simpl in Hi'.
      assert (i = length bs) as -> by lia.
      rewrite list_lookup_middle in Hi by done. congruence.
  - intros ->. exists (length bs), b.
    split; [by apply list_lookup_middle|]. split; [done|]. split; [done|].
    intros j l' b' Hj Hl'. apply lookup_lt_Some in Hl'.
    rewrite length_app in Hl'. simpl in Hl'. lia.
Qed.

Lemma last_under_snoc_miss bs x k l :
  (∀ b, st !! x = Some b → key b ≠ Some k) →
  last_under key st (bs ++ [x]) k l ↔ last_under key st bs k l.
Proof.
  intros Hx. split.
  - intros (i & b0 & Hi & Hb0 & Hk0 & Hlast).
    destruct (decide (i < length bs)%nat) as [Hlt|Hge].
    + exists i, b0. rewrite lookup_app_l in Hi by done.
      split; [done|]. split; [done|]. split; [done|].
      intros j l' b' Hj Hl' Hb'. apply (Hlast j l' b'); [done| |done].
      apply lookup_app_l_Some. done.
    + apply lookup_lt_Some in Hi as Hi'. rewrite length_app in Hi'. simpl in Hi'.
      assert (i = length bs) as -> by lia.
      rewrite list_lookup_middle in Hi by done. injection Hi as <-.
      exfalso. by apply (Hx b0).
  - intros (i & b0 & Hi & Hb0 & Hk0 & Hlast).
    exists i, b0. split; [by apply lookup_app_l_Some|].
    split; [done|]. split; [done|].
    intros j l' b' Hj Hl' Hb'.
    destruct (decide (j < length bs)%nat) as [Hlt|Hge].
    + rewrite lookup_app_l in Hl' by done. by apply (Hlast j l' b').
    + apply lookup_lt_Some in Hl' as Hj'. rewrite length_app in Hj'. simpl in Hj'.
      assert (j = length bs) as -> by lia.
      rewrite list_lookup_middle in Hl' by done. injection Hl' as <-.
      by apply Hx.
Qed.

(** In the dictionary built from the empty one, a key gives the last
    book of the list that is filed under it. *)
Lemma file_under_last bs k l :
  fold_left (file_under key st) bs ∅ !! k = Some l ↔ last_under key st bs k l.
Proof.
  induction bs as [|x bs IH] using rev_ind.
  - simpl. rewrite lookup_empty. split; [done|].
    intros (i & b & Hi & _). by rewrite lookup_nil in Hi.
  - rewrite file_under_snoc. unfold file_under at 1.
    destruct (st !! x) as [b|] eqn:Hb.
    + destruct (key b) as [k0|] eqn:Hk.
      * destruct (decide (k0 = k)) as [->|Hne].
        -- rewrite lookup_insert_eq, (last_under_snoc_hit _ _ b) by done.
           split; [by intros [= ->]|by intros ->].
        -- rewrite lookup_insert_ne by done. rewrite IH.
           symmetry. apply last_under_snoc_miss. intros b' Hb'. congruence.
      * rewrite IH. symmetry. apply last_under_snoc_miss. intros b' Hb'. congruence.
    + rewrite IH. symmetry. apply last_under_snoc_miss. intros b' Hb'. congruence.
Qed.

(** Every key of a book of the list is in the dictionary. *)
Lemma file_under_is_Some bs k i l b :
  bs !! i = Some l → st !! l = Some b → key b = Some k →
  is_Some (fold_left (file_under key st) bs ∅ !! k).
Proof.
  revert i. induction bs as [|x bs IH] using rev_ind; intros i Hi Hb Hk.
  - by rewrite lookup_nil in Hi.
  - rewrite file_under_snoc. unfold file_under at 1.
    destruct (decide (i < length bs)%nat) as [Hlt|Hge].
    + rewrite lookup_app_l in Hi by done. specialize (IH i Hi Hb Hk).
      destruct (st !! x) as [b'|]; [|done].
      destruct (key b') as [k0|]; [|done].
      destruct (decide (k0 = k)) as [->|Hne].
      * rewrite lookup_insert_eq. by eexists.
      * by rewrite lookup_insert_ne.
    + apply lookup_lt_Some in Hi as Hi'. rewrite length_app in Hi'. simpl in Hi'.
      assert (i = length bs) as -> by lia.
      rewrite list_lookup_middle in Hi by done. injection Hi as ->.
      rewrite Hb, Hk, lookup_insert_eq. by eexists.
Qed.

End Keyed.

Lemma by_id_fold st bs ix :
  FastBookLookup.by_id (fold_left (index_ref st) bs ix)
  = fold_left (file_under id_key st) bs (FastBookLookup.by_id ix).
Proof.
  revert ix. induction bs as [|l bs IH]; intros ix; simpl; [done|].
  rewrite IH. f_equal. unfold index_ref, file_under.
  destruct (st !! l) as [b|]; [|done]. simpl. unfold id_key.
  by destruct (Book.id b =? 0).
Qed.

Lemma by_isbn_fold st bs ix :
  FastBookLookup.by_isbn (fold_left (index_ref st) bs ix)
  = fold_left (file_under isbn_key st) bs (FastBookLookup.by_isbn ix).
Proof.
  revert ix. induction bs as [|l bs IH]; intros ix; simpl; [done|].
  rewrite IH. f_equal. unfold index_ref, file_under.
  destruct (st !! l) as [b|]; [|done]. simpl. unfold isbn_key.
  by destruct (truthy (Book.isbn b)).
Qed.

Lemma title_lower_fold st bs ix :
  FastBookLookup.title_lower_map (fold_left (index_ref st) bs ix)
  = fold_left (file_under lower_title_key st) bs (FastBookLookup.title_lower_map ix).
Proof.
  revert ix. induction bs as [|l bs IH]; intros ix; simpl; [done|].
  rewrite IH. f_equal. unfold index_ref, file_under.
  destruct (st !! l) as [b|]; [|done]. simpl. unfold lower_title_key.
  by destruct (truthy (Book.title b)).
Qed.

Lemma get_by_id_rebuild d k l :
  get_by_id (rebuild d) k = Some l ↔ last_under id_key (store d) (books d) k l.
Proof.
  unfold get_by_id, rebuild, build_index. simpl.
  rewrite by_id_fold. apply file_under_last.
Qed.

Lemma id_key_Some b k : id_key b = Some k ↔ Book.id b = k ∧ k ≠ 0.
Proof.
  unfold id_key. destruct (Z.eqb_spec (Book.id b) 0).
  - split; [done|]. intros [? ?]. congruence.
  - split; [intros [= <-]; done|]. by intros [-> _].
Qed.

(** X4.  After [build_index] the id look-up is exact for the catalog: id 0
    is never found; a reference found is a book of the catalog with that
    id; every book of the catalog with an id other than 0 has its id
    resolved to a book with that id; and among several books with one id
    the last of the list is the one found. *)
Theorem get_by_id_after_build_index (d : LibraryData) :
  get_by_id (rebuild d) 0 = None
  ∧ (∀ k l, get_by_id (rebuild d) k = Some l →
       l ∈ books d ∧ ∃ b, deref d l = Some b ∧ Book.id b = k)
  ∧ (∀ l b, l ∈ books d → deref d l = Some b → Book.id b ≠ 0 →
       ∃ l' b', get_by_id (rebuild d) (Book.id b) = Some l'
                ∧ deref d l' = Some b' ∧ Book.id b' = Book.id b)
  ∧ (∀ k l, get_by_id (rebuild d) k = Some l ↔
       ∃ i b, books d !! i = Some l ∧ deref d l = Some b ∧ Book.id b = k ∧ k ≠ 0
              ∧ ∀ j l' b', (i < j)%nat → books d !! j = Some l' →
                           deref d l' = Some b' → Book.id b' ≠ k).
Proof.
  assert (∀ k l, get_by_id (rebuild d) k = Some l →
            l ∈ books d ∧ ∃ b, deref d l = Some b ∧ Book.id b = k) as Hsound.
  { intros k l (i & b & Hi & Hb & Hk & _)%get_by_id_rebuild.
    apply id_key_Some in Hk as [Hk _].
    split; [by eapply list_elem_of_lookup_2|by exists b]. }
  split.
  { destruct (get_by_id (rebuild d) 0) as [l|] eqn:E; [|done].
    apply get_by_id_rebuild in E as (i & b & _ & _ & Hk & _).
    apply id_key_Some in Hk as [_ Hk]. done. }
  split; [done|]. split.
  { intros l b [i Hi]%list_elem_of_lookup_1 Hb Hid.
    assert (is_Some (get_by_id (rebuild d) (Book.id b))) as [l' Hl'].
    { unfold get_by_id, rebuild, build_index. simpl. rewrite by_id_fold.
      apply (file_under_is_Some _ _ _ _ i l b); [done|done|].
      by apply id_key_Some. }
    destruct (Hsound _ _ Hl') as [_ (b' & Hb' & Hid')].
    by exists l', b'. }
  intros k l. rewrite get_by_id_rebuild. unfold last_under. split.
  - intros (i & b & Hi & Hb & Hk & Hlast). apply id_key_Some in Hk as [Hk Hk0].
    exists i, b. repeat split; try done.
    intros j l' b' Hj Hl' Hb' Hid. apply (Hlast j l' b' Hj Hl' Hb').
    by apply id_key_Some.
  - intros (i & b & Hi & Hb & Hk & Hk0 & Hlast).
    exists i, b. repeat split; try done; [by apply id_key_Some|].
    intros j l' b' Hj Hl' Hb' [Hid _]%id_key_Some. by apply (Hlast j l' b').
Qed.

Lemma lower_title_key_Some b k :
  lower_title_key b = Some k ↔ truthy (Book.title b) = true ∧ lower (Book.title b) = k.
Proof.
  unfold lower_title_key. destruct (truthy (Book.title b)).
  - split; [by intros [= <-]|by intros [_ ->]].
  - split; [done|by intros [? _]].
Qed.

(** X5.  After [build_index] the title look-up ignores case: for a book of
    the catalog with a title that is not empty, any text that lowers to
    the same text as its title finds a book of the catalog whose title
    lowers to that text; and whatever the look-up returns is such a
    book. *)
Theorem get_by_title_ignores_case (d : LibraryData) (l : ref) (b : Book.t)
    (query : string)
    (Hl : l ∈ books d) (Hb : deref d l = Some b)
    (Htitle : truthy (Book.title b) = true)
    (Hquery : lower query = lower (Book.title b)) :
  (∃ l' b', get_by_title (rebuild d) query = Some l'
            ∧ l' ∈ books d ∧ deref d l' = Some b'
            ∧ lower (Book.title b') = lower query)
  ∧ (∀ q l', get_by_title (rebuild d) q = Some l' →
       l' ∈ books d
       ∧ ∃ b', deref d l' = Some b' ∧ truthy (Book.title b') = true
               ∧ lower (Book.title b') = lower q).
Proof.
  assert (∀ q l', get_by_title (rebuild d) q = Some l' →
            l' ∈ books d
            ∧ ∃ b', deref d l' = Some b' ∧ truthy (Book.title b') = true
                    ∧ lower (Book.title b') = lower q) as Hsound.
  { intros q l'. unfold get_by_title, rebuild, build_index. simpl.
    rewrite title_lower_fold.
    intros (i & b' & Hi & Hb' & Hk & _)%file_under_last.
    apply lower_title_key_Some in Hk as [Ht Hk].
    split; [by eapply list_elem_of_lookup_2|by exists b']. }
  split; [|done].
  apply list_elem_of_lookup_1 in Hl as [i Hi].
  assert (is_Some (get_by_title (rebuild d) query)) as [l' Hl'].
  { unfold get_by_title, rebuild, build_index. simpl. rewrite title_lower_fold.
    apply (file_under_is_Some _ _ _ _ i l b); [done|done|].
    apply lower_title_key_Some. by rewrite Hquery. }
  destruct (Hsound _ _ Hl') as [Hin (b' & Hb' & _ & Hlow)].
  by exists l', b'.
Qed.

Lemma get_by_title_ignores_case_witness :
  ∃ l' b', get_by_title (rebuild five_copies) "DUNE" = Some l'
           ∧ l' ∈ books five_copies ∧ deref five_copies l' = Some b'
           ∧ lower (Book.title b') = lower "DUNE".
Proof.
  apply (get_by_title_ignores_case five_copies 0%nat
           (Book.mk 1 "T1" "Dune" "Author" "111" "General" "" "2024"
              0 0 5 5 "" "" (Clock.ISO 0)) "DUNE").
  - by left.
  - reflexivity.
  - reflexivity.
  - reflexivity.
Defined.
(** ** The stock lists *)

Lemma books_where_elem p d l :
  l ∈ books_where p d ↔ l ∈ books d ∧ ∃ b, deref d l = Some b ∧ p b = true.
Proof.
  unfold books_where. rewrite list_elem_of_In, filter_In, <- list_elem_of_In.
  split.
  - intros [Hl Hp]. split; [done|].
    destruct (deref d l) as [b|]; [|done]. by exists b.
  - intros [Hl (b & Hb & Hp)]. split; [done|]. by rewrite Hb.
Qed.

(** Three tests of which exactly one holds of each book split a list of
    valid references in three. *)
Lemma filter_three_lengths (st : list Book.t) (p1 p2 p3 : Book.t → bool) bs :
  (∀ b, (if p1 b then 1 else 0) + (if p2 b then 1 else 0) + (if p3 b then 1 else 0) = 1) →
  Forall (λ l, is_Some (st !! l)) bs →
  (length (List.filter (λ l, from_option p1 false (st !! l)) bs)
   + length (List.filter (λ l, from_option p2 false (st !! l)) bs)
   + length (List.filter (λ l, from_option p3 false (st !! l)) bs)
   = length bs)%nat.
Proof.
  intros Hone Hvalid. induction Hvalid as [|l bs [b Hb] _ IH]; [done|].
  simpl. rewrite Hb. simpl. specialize (Hone b).
  destruct (p1 b), (p2 b), (p3 b); simpl; lia.
Qed.

(** X6.  The three stock lists split the catalog: every book is in the
    out-of-stock list exactly when it has no available copy, in the
    low-stock list when it has 1 to 3, in the in-stock list when it has
    more, so the three lengths add up to the length of the catalog; and
    [get_book_stock_status] names the list that holds the first book with
    the id, or reports that no book has it. *)
Theorem stock_lists_split_catalog (s : StockManagementSystem)
    (Hvalid : Forall (λ l, is_Some (deref (data s) l)) (books (data s))) :
  (length (get_out_of_stock_books s) + length (get_low_stock_books s)
   + length (get_in_stock_books s) = length (books (data s)))%nat
  ∧ (∀ l b, l ∈ books (data s) → deref (data s) l = Some b →
       (l ∈ get_out_of_stock_books s ↔ Book.available_copies b ≤ 0)
       ∧ (l ∈ get_low_stock_books s ↔ 0 < Book.available_copies b ≤ 3)
       ∧ (l ∈ get_in_stock_books s ↔ 3 < Book.available_copies b))
  ∧ (∀ book_id,
       match get_book_stock_status s book_id with
       | NOT_FOUND =>
           ∀ l b, l ∈ books (data s) → deref (data s) l = Some b → Book.id b ≠ book_id
       | OUT_OF_STOCK =>
           ∃ i l, scan (data s) (has_id book_id) = Some (i, l)
                  ∧ l ∈ get_out_of_stock_books s
       | LOW_STOCK =>
           ∃ i l, scan (data s) (has_id book_id) = Some (i, l)
                  ∧ l ∈ get_low_stock_books s
       | IN_STOCK =>
           ∃ i l, scan (data s) (has_id book_id) = Some (i, l)
                  ∧ l ∈ get_in_stock_books s
       end).
Proof.
  split.
  { unfold get_out_of_stock_books, get_low_stock_books, get_in_stock_books, books_where.
    apply (filter_three_lengths (store (data s))); [|done].
    intros b.
    destruct (Z.leb_spec (Book.available_copies b) 0),
      (Z.ltb_spec 0 (Book.available_copies b)),
      (Z.leb_spec (Book.available_copies b) 3),
      (Z.gtb_spec (Book.available_copies b) 3); simpl; lia. }
  split.
  { intros l b Hl Hb.
    unfold get_out_of_stock_books, get_low_stock_books, get_in_stock_books.
    rewrite !books_where_elem.
    assert (∀ p : Book.t → bool,
              (l ∈ books (data s) ∧ ∃ b', deref (data s) l = Some b' ∧ p b' = true)
              ↔ p b = true) as Hp.
    { intros p. split.
      - intros [_ (b' & Hb' & Hp)]. rewrite Hb in Hb'. by injection Hb' as <-.
      - intros Hp. split; [done|]. by exists b. }
    rewrite !Hp. rewrite andb_true_iff. lia. }
  intros book_id. unfold get_book_stock_status.
  destruct (scan (data s) (has_id book_id)) as [[i l]|] eqn:E.
  - destruct (scan_Some _ _ _ _ E) as (b & Hb & _ & Hi). simpl. rewrite Hb.
    assert (l ∈ books (data s)) as Hl by (by eapply list_elem_of_lookup_2).
    unfold get_out_of_stock_books, get_low_stock_books, get_in_stock_books.
    destruct (Z.leb_spec (Book.available_copies b) 0).
    + exists i, l. split; [done|]. apply books_where_elem. split; [done|].
      exists b. split; [done|]. lia.
    + destruct (Z.leb_spec (Book.available_copies b) 3).
      * exists i, l. split; [done|]. apply books_where_elem. split; [done|].
        exists b. split; [done|]. apply andb_true_iff. lia.
      * exists i, l. split; [done|]. apply books_where_elem. split; [done|].
        exists b. split; [done|]. lia.
  - simpl. intros l b Hl Hb Hid.
    pose proof (scan_from_None _ _ _ _ E l b Hl Hb) as Hp.
    apply has_id_true in Hid. congruence.
Qed.

Lemma stock_lists_split_catalog_witness :
  (length (get_out_of_stock_books three_books) + length (get_low_stock_books three_books)
   + length (get_in_stock_books three_books) = 3)%nat.
Proof.
  apply (stock_lists_split_catalog three_books).
  repeat constructor; by eexists.
Defined.

(** ** Borrow counts *)

Lemma update_first_member_spec member_id delta ms :
  (update_first_member member_id delta ms = (false, ms)
   ∧ Forall (λ m, Member.id m ≠ member_id) ms)
  ∨ ∃ ms1 m ms2,
      ms = ms1 ++ m :: ms2
      ∧ Forall (λ m', Member.id m' ≠ member_id) ms1
      ∧ Member.id m = member_id
      ∧ update_first_member member_id delta ms
        = (true, ms1 ++ bump_member delta m :: ms2).
Proof.
  induction ms as [|m0 rest IH]; simpl.
  - left. by split.
  - destruct (String.eqb_spec (Member.id m0) member_id) as [Heq|Hne].
    + right. exists [], m0, rest. by repeat split.
    + destruct IH as [[-> Hall]|(ms1 & m & ms2 & -> & Hall & Hm & ->)].
      * left. split; [done|]. by constructor.
      * right. exists (m0 :: ms1), m, ms2. repeat split; try done. by constructor.
Qed.

(** X7.  [update_borrow_count] touches the members only.  For an id that
    no member has it returns [False] and changes nothing.  Otherwise it
    returns [True] and changes the first member with the id alone: the
    current count moves by [delta] but not below 0, and the lifetime
    count grows by the absolute value of [delta], so also when [delta] is
    negative. *)
Theorem update_borrow_count_floor_and_lifetime (member_id : string) (delta : Z)
    (d : LibraryData) :
  let r := update_borrow_count member_id delta d in
  store r.2 = store d ∧ books r.2 = books d ∧ transactions r.2 = transactions d
  ∧ book_lookup r.2 = book_lookup d
  ∧ match r.1 with
    | false => r.2 = d ∧ Forall (λ m, Member.id m ≠ member_id) (members d)
    | true =>
        ∃ ms1 m ms2 m',
          members d = ms1 ++ m :: ms2
          ∧ Forall (λ m0, Member.id m0 ≠ member_id) ms1
          ∧ Member.id m = member_id
          ∧ members r.2 = ms1 ++ m' :: ms2
          ∧ Member.id m' = Member.id m ∧ Member.name m' = Member.name m
          ∧ Member.active m' = Member.active m
          ∧ Member.current_borrowed m' = Z.max 0 (Member.current_borrowed m + delta)
          ∧ 0 ≤ Member.current_borrowed m'
          ∧ Member.total_borrowed m' = Member.total_borrowed m + Z.abs delta
          ∧ Member.total_borrowed m ≤ Member.total_borrowed m'
    end.
Proof.
  intros r. subst r. unfold update_borrow_count.
  destruct (update_first_member_spec member_id delta (members d))
    as [[-> Hall]|(ms1 & m & ms2 & Hms & Hall & Hm & ->)]; simpl.
  - repeat split; try done. by destruct d.
  - repeat split; try done.
    exists ms1, m, ms2, (bump_member delta m). unfold bump_member; simpl.
    repeat split; try done;
      destruct (Z.ltb_spec (Member.current_borrowed m + delta) 0); lia.
Qed.

(** ** Overdue transactions *)

Lemma overdue_entry_Some tm now t e :
  overdue_entry tm now t = Some e ↔
  Transaction.status t = Transaction.issued
  ∧ ∃ dd, Transaction.due_date t = Clock.ISO dd ∧ dd * Clock.day_us < now
          ∧ e = mkOverdue (set_fine_amount ((now / Clock.day_us - dd) * daily_fine tm) t)
                  (now / Clock.day_us - dd).
Proof.
  unfold overdue_entry. destruct (Transaction.status t).
  2:{ split; [done|]. by intros [? _]. }
  destruct (Transaction.due_date t) as [dd|txt]; simpl.
  2:{ split; [done|]. by intros [_ (dd & ? & _)]. }
  rewrite delta_days_midnight.
  destruct (Z.gtb_spec now (dd * Clock.day_us)).
  - split.
    + intros [= <-]. split; [done|]. exists dd. by repeat split; try lia.
    + intros [_ (dd' & [= <-] & _ & ->)]. done.
  - split; [done|]. intros [_ (dd' & [= <-] & ? & _)]. lia.
Qed.

Lemma overdue_entry_past_due tm now t :
  match overdue_entry tm now t with
  | Some e =>
      past_due now t = true
      ∧ ∃ dd, Transaction.due_date t = Clock.ISO dd
              ∧ e = mkOverdue
                      (set_fine_amount ((now / Clock.day_us - dd) * daily_fine tm) t)
                      (now / Clock.day_us - dd)
  | None => past_due now t = false
  end.
Proof.
  destruct (overdue_entry tm now t) as [e|] eqn:E.
  - apply overdue_entry_Some in E as (Hst & dd & Hdd & Hlt & ->).
    split; [|by exists dd]. unfold past_due. rewrite Hst, Hdd.
    by apply Z.ltb_lt.
  - unfold past_due.
    destruct (Transaction.status t) eqn:Hst; [|done].
    destruct (Transaction.due_date t) as [dd|txt] eqn:Hdd; [|done].
    destruct (Z.ltb_spec (dd * Clock.day_us) now) as [Hlt|]; [|done].
    assert (overdue_entry tm now t
            = Some (mkOverdue
                      (set_fine_amount ((now / Clock.day_us - dd) * daily_fine tm) t)
                      (now / Clock.day_us - dd))) as E'.
    { apply overdue_entry_Some. split; [done|]. by exists dd. }
    congruence.
Qed.

(** X8.  [get_overdue_transactions] lists exactly the issued transactions
    whose due date reads as a date and lies before now, from the first
    moment after midnight of the due day on: one entry for each of them,
    in the order of the transactions.  Each entry carries the whole days
    elapsed since the due date, never negative, and as fine what
    [calculate_fine] gives for its due date.  Returned transactions are
    never listed. *)
Theorem get_overdue_transactions_lists_issued_past_due (tm : TransactionManager)
    (now : Clock.datetime) (d : LibraryData) :
  Forall2
    (λ e t,
       overdue_transaction e
       = set_fine_amount (calculate_fine tm now (Transaction.due_date t)) t
       ∧ ∃ dd, Transaction.due_date t = Clock.ISO dd
               ∧ overdue_days e = now / Clock.day_us - dd)
    (get_overdue_transactions tm now d)
    (List.filter (past_due now) (transactions d))
  ∧ (∀ e, e ∈ get_overdue_transactions tm now d →
     ∃ t dd, t ∈ transactions d
       ∧ Transaction.status t = Transaction.issued
       ∧ Transaction.due_date t = Clock.ISO dd ∧ dd * Clock.day_us < now
       ∧ overdue_days e = now / Clock.day_us - dd ∧ 0 ≤ overdue_days e
       ∧ overdue_transaction e
         = set_fine_amount (calculate_fine tm now (Transaction.due_date t)) t
       ∧ Transaction.fine_amount (overdue_transaction e)
         = overdue_days e * daily_fine tm)
  ∧ (∀ t dd, t ∈ transactions d → Transaction.status t = Transaction.issued →
       Transaction.due_date t = Clock.ISO dd → dd * Clock.day_us < now →
       mkOverdue (set_fine_amount ((now / Clock.day_us - dd) * daily_fine tm) t)
         (now / Clock.day_us - dd) ∈ get_overdue_transactions tm now d)
  ∧ (∀ e, e ∈ get_overdue_transactions tm now d →
       Transaction.status (overdue_transaction e) = Transaction.issued)
  ∧ (length (get_overdue_transactions tm now d) ≤ length (transactions d))%nat.
Proof.
  unfold get_overdue_transactions. split; [|split; [|split; [|split]]].
  - induction (transactions d) as [|t ts IH]; [by constructor|].
    change (omap (overdue_entry tm now) (t :: ts))
      with (match overdue_entry tm now t with
            | Some e => e :: omap (overdue_entry tm now) ts
            | None => omap (overdue_entry tm now) ts
            end).
    cbn [List.filter].
    pose proof (overdue_entry_past_due tm now t) as Ht.
    destruct (overdue_entry tm now t) as [e|] eqn:E.
    + destruct Ht as [-> _].
      apply overdue_entry_Some in E as (Hst & dd & Hdd & Hlt & ->).
      constructor; [|done]. simpl. split; [|by exists dd].
      rewrite Hdd, fine_of_day.
      by destruct (Z.gtb_spec now (dd * Clock.day_us)); [|lia].
    + by rewrite Ht.
  - intros e (t & Ht & He)%list_elem_of_omap.
    apply overdue_entry_Some in He as (Hst & dd & Hdd & Hlt & ->).
    exists t, dd. simpl. repeat split; try done.
    + by apply overdue_days_nonneg.
    + rewrite Hdd, fine_of_day. by destruct (Z.gtb_spec now (dd * Clock.day_us)); [|lia].
  - intros t dd Ht Hst Hdd Hlt. apply list_elem_of_omap. exists t.
    split; [done|]. apply overdue_entry_Some. split; [done|]. by exists dd.
  - intros e (t & Ht & He)%list_elem_of_omap.
    by apply overdue_entry_Some in He as (Hst & dd & _ & _ & ->).
  - induction (transactions d) as [|t ts IH]; [done|].
    change (omap (overdue_entry tm now) (t :: ts))
      with (match overdue_entry tm now t with
            | Some e => e :: omap (overdue_entry tm now) ts
            | None => omap (overdue_entry tm now) ts
            end).
    destruct (overdue_entry tm now t); simpl; lia.
Qed.

(** ** Deleting one book *)

Lemma elem_of_delete_other {A} (l li : A) (bs : list A) i :
  l ∈ bs → bs !! i = Some li → l ≠ li → l ∈ delete i bs.
Proof.
  intros [j Hj]%list_elem_of_lookup_1 Hi Hne.
  assert (j ≠ i) by (intros ->; congruence).
  destruct (decide (j < i)%nat).
  - apply (list_elem_of_lookup_2 _ j). by rewrite list_lookup_delete_lt.
  - apply (list_elem_of_lookup_2 _ (j - 1)%nat).
    rewrite list_lookup_delete_ge by lia. rewrite <- Hj. f_equal. lia.
Qed.

(** X9.  [delete_book] never removes a book with copies on loan, nor a
    book with another id, in any state: either it returns [False] and the
    state is as before, or it returns [True] and the catalog has lost
    exactly the first book with the id, which had no copy on loan.  The
    books themselves are not changed. *)
Theorem delete_book_keeps_books_on_loan (book_id : Z) (d : LibraryData) :
  let r := delete_book book_id d in
  store r.2 = store d
  ∧ (∀ l b, l ∈ books d → deref d l = Some b →
       Book.available_copies b < Book.total_copies b → l ∈ books r.2)
  ∧ (∀ l b, l ∈ books d → deref d l = Some b → Book.id b ≠ book_id → l ∈ books r.2)
  ∧ match r.1.1 with
    | false => r.2 = d
    | true =>
        ∃ i l b, scan d (has_id book_id) = Some (i, l) ∧ deref d l = Some b
                 ∧ Book.id b = book_id
                 ∧ Book.total_copies b ≤ Book.available_copies b
                 ∧ books r.2 = delete i (books d)
                 ∧ length (books r.2) = (length (books d) - 1)%nat
                 ∧ r.1.2 = []
    end.
Proof.
  intros r. subst r. unfold delete_book.
  destruct (scan d (has_id book_id)) as [[i l0]|] eqn:E; [|done].
  destruct (scan_Some _ _ _ _ E) as (b0 & Hb0 & Hid & Hi). rewrite Hb0.
  apply has_id_true in Hid.
  destruct (Z.ltb_spec (Book.available_copies b0) (Book.total_copies b0)); [done|].
  simpl. split; [done|]. split.
  { intros l b Hl Hb Hloan. apply (elem_of_delete_other _ l0); [done|done|].
    intros ->. rewrite Hb in Hb0. injection Hb0 as ->. lia. }
  split.
  { intros l b Hl Hb Hne. apply (elem_of_delete_other _ l0); [done|done|].
    intros ->. rewrite Hb in Hb0. injection Hb0 as ->. done. }
  exists i, l0, b0. repeat split; try done.
  apply length_delete. by eexists.
Qed.
(** ** Deleting several books *)

(** The books that the first loop of [delete_selected_books] marks for
    deletion: those found through the index under a requested id, with no
    copy on loan. *)
Lemma check_selected_to_delete d book_ids l :
  l ∈ (check_selected d book_ids).1 ↔
  ∃ k b, k ∈ book_ids ∧ get_by_id d k = Some l ∧ deref d l = Some b
         ∧ Book.total_copies b ≤ Book.available_copies b.
Proof.
  induction book_ids as [|k0 rest IH]; simpl.
  - split; [by intros ?%elem_of_nil|]. intros (k & b & Hk & _). by apply elem_of_nil in Hk.
  - destruct (check_selected d rest) as [td wi] eqn:E. simpl in IH.
    assert ((∃ k b, k ∈ rest ∧ get_by_id d k = Some l ∧ deref d l = Some b
                    ∧ Book.total_copies b ≤ Book.available_copies b)
            → ∃ k b, k ∈ k0 :: rest ∧ get_by_id d k = Some l ∧ deref d l = Some b
                     ∧ Book.total_copies b ≤ Book.available_copies b) as Hweak.
    { intros (k & b & Hk & H). exists k, b. split; [by right|done]. }
    destruct (get_by_id d k0) as [l0|] eqn:Hg.
    2:{ simpl. rewrite IH. split; [done|].
        intros (k & b & [->|Hk]%elem_of_cons & Hgk & H); [congruence|].
        by exists k, b. }
    destruct (deref d l0) as [b0|] eqn:Hb0.
    2:{ simpl. rewrite IH. split; [done|].
        intros (k & b & [->|Hk]%elem_of_cons & Hgk & Hb & H); [congruence|].
        by exists k, b. }
    destruct (Z.ltb_spec (Book.available_copies b0) (Book.total_copies b0)); simpl.
    + rewrite IH. split; [done|].
      intros (k & b & [->|Hk]%elem_of_cons & Hgk & Hb & H').
      * rewrite Hg in Hgk. injection Hgk as <-. rewrite Hb0 in Hb.
        injection Hb as <-. lia.
      * by exists k, b.
    + rewrite elem_of_cons, IH. split.
      * intros [->|H']; [|by apply Hweak]. exists k0, b0. split; [by left|done].
      * intros (k & b & [->|Hk]%elem_of_cons & Hgk & Hb & H').
        -- left. congruence.
        -- right. by exists k, b.
Qed.

Lemma delete_selected_books_state book_ids d :
  let r := delete_selected_books book_ids d in
  store r.2 = store d
  ∧ books r.2
    = books (fold_left delete_first_with_id_of (check_selected d book_ids).1 d)
  ∧ (r.1.1 = true ↔ (check_selected d book_ids).1 ≠ []).
Proof.
  unfold delete_selected_books.
  destruct (check_selected d book_ids) as [td wi]. simpl.
  destruct (delete_all_sub td d) as [Hs _].
  destruct wi as [|w wi], td as [|t td]; simpl; repeat split; try done.
Qed.

Lemma get_by_id_sound d k l :
  book_lookup d = build_index (store d) (books d) →
  get_by_id d k = Some l → l ∈ books d ∧ ∃ b, deref d l = Some b ∧ Book.id b = k.
Proof.
  intros Hfresh Hg.
  assert (get_by_id (rebuild d) k = Some l) as Hg'.
  { unfold get_by_id, rebuild in *. simpl. by rewrite <- Hfresh. }
  apply get_by_id_rebuild in Hg' as (i & b & Hi & Hb & Hk & _).
  apply id_key_Some in Hk as [Hk _].
  split; [by eapply list_elem_of_lookup_2|by exists b].
Qed.

Lemma not_elem_of_delete_NoDup {A} (x : A) (bs : list A) i :
  NoDup bs → bs !! i = Some x → x ∉ delete i bs.
Proof.
  intros Hnd Hi [j Hj]%list_elem_of_lookup_1.
  rewrite list_lookup_delete in Hj. case_decide.
  - pose proof (NoDup_lookup _ _ _ _ Hnd Hi Hj). lia.
  - pose proof (NoDup_lookup _ _ _ _ Hnd Hi Hj). lia.
Qed.

Section UniqueIds.

Variable d : LibraryData.

(** No two books of the catalog have the same id. *)
Hypothesis Hunique : ∀ l1 l2 b1 b2,
  l1 ∈ books d → l2 ∈ books d → deref d l1 = Some b1 → deref d l2 = Some b2 →
  Book.id b1 = Book.id b2 → l1 = l2.

(** With ids that are unique, the inner loop removes the book it was
    given, if the list still holds it, and nothing else. *)
Lemma delete_first_unique dcur lt bt :
  store dcur = store d → (∀ l, l ∈ books dcur → l ∈ books d) →
  lt ∈ books d → deref d lt = Some bt →
  let d' := delete_first_with_id_of dcur lt in
  (∀ l, l ∈ books dcur → l ≠ lt → l ∈ books d')
  ∧ (NoDup (books dcur) → lt ∉ books d').
Proof.
  intros Hst Hsub Hlt Hbt d'. subst d'. unfold delete_first_with_id_of.
  assert (deref dcur lt = Some bt) as -> by (unfold deref in *; by rewrite Hst).
  destruct (scan dcur (has_id (Book.id bt))) as [[i l0]|] eqn:E.
  - destruct (scan_Some _ _ _ _ E) as (b0 & Hb0 & Hid & Hi).
    apply has_id_true in Hid.
    assert (l0 = lt) as ->.
    { apply (Hunique l0 lt b0 bt); try done.
      - apply Hsub. by eapply list_elem_of_lookup_2.
      - unfold deref in *. by rewrite <- Hst. }
    simpl. split.
    + intros l Hl Hne. by apply (elem_of_delete_other _ lt).
    + intros Hnd. by apply not_elem_of_delete_NoDup.
  - split; [done|]. intros _ Hin.
    assert (deref dcur lt = Some bt) as Hb' by (unfold deref in *; by rewrite Hst).
    pose proof (scan_from_None _ _ _ _ E lt bt Hin Hb') as Hp.
    unfold has_id in Hp. by rewrite Z.eqb_refl in Hp.
Qed.

Lemma delete_all_unique ls : ∀ dcur,
  store dcur = store d → (∀ l, l ∈ books dcur → l ∈ books d) →
  (∀ lt, lt ∈ ls → lt ∈ books d ∧ is_Some (deref d lt)) →
  let d' := fold_left delete_first_with_id_of ls dcur in
  (∀ l, l ∈ books dcur → l ∉ ls → l ∈ books d')
  ∧ (NoDup (books dcur) → ∀ lt, lt ∈ ls → lt ∉ books d').
Proof.
  induction ls as [|lt rest IH]; intros dcur Hst Hsub Hls; cbn [fold_left].
  - split; [done|]. intros _ lt Hlt. by apply elem_of_nil in Hlt.
  - destruct (Hls lt ltac:(by left)) as [Hlt [bt Hbt]].
    destruct (delete_first_unique dcur lt bt Hst Hsub Hlt Hbt) as [Hkeep Hgone].
    destruct (delete_first_sub dcur lt) as [Hst1 Hsub1].
    destruct (IH (delete_first_with_id_of dcur lt)) as [Hkeep' Hgone'].
    { congruence. }
    { intros l Hl. by apply Hsub, Hsub1. }
    { intros l Hl. apply Hls. by right. }
    split.
    + intros l Hl Hnot. apply Hkeep'.
      * apply Hkeep; [done|]. intros ->. apply Hnot. by left.
      * intros Hin. apply Hnot. by right.
    + intros Hnd lt' [->|Hin]%elem_of_cons.
      * intros Hfinal.
        destruct (delete_all_sub rest (delete_first_with_id_of dcur lt)) as [_ Hsub2].
        by apply (Hgone Hnd), Hsub2.
      * apply Hgone'; [|done].
        unfold delete_first_with_id_of.
        destruct (deref dcur lt) as [bk|]; [|done].
        destruct (scan dcur (has_id (Book.id bk))) as [[i l0]|]; [|done].
        simpl. pose proof (sublist_delete (books dcur) i) as Hsl.
        by eapply sublist_NoDup.
Qed.

End UniqueIds.

(** X10.  In a catalog where the index has just been built and no two
    books have the same id, [delete_selected_books] keeps every book with
    copies on loan and every book whose id was not requested, adds no
    book, and changes no book; it returns [True] exactly when some
    requested id is that of a book with no copy on loan; and when no
    reference occurs twice in the catalog, those books are gone
    afterwards. *)
Theorem delete_selected_books_respects_loans (book_ids : list Z) (d : LibraryData)
    (Hfresh : book_lookup d = build_index (store d) (books d))
    (Hunique : ∀ l1 l2 b1 b2,
       l1 ∈ books d → l2 ∈ books d → deref d l1 = Some b1 → deref d l2 = Some b2 →
       Book.id b1 = Book.id b2 → l1 = l2) :
  let r := delete_selected_books book_ids d in
  store r.2 = store d
  ∧ (∀ l, l ∈ books r.2 → l ∈ books d)
  ∧ (∀ l b, l ∈ books d → deref d l = Some b →
       Book.available_copies b < Book.total_copies b → l ∈ books r.2)
  ∧ (∀ l b, l ∈ books d → deref d l = Some b → Book.id b ∉ book_ids → l ∈ books r.2)
  ∧ (r.1.1 = true ↔
     ∃ k l b, k ∈ book_ids ∧ get_by_id d k = Some l ∧ deref d l = Some b
              ∧ Book.total_copies b ≤ Book.available_copies b)
  ∧ (NoDup (books d) →
     ∀ k l b, k ∈ book_ids → get_by_id d k = Some l → deref d l = Some b →
              Book.total_copies b ≤ Book.available_copies b → l ∉ books r.2).
Proof.
  intros r. subst r.
  destruct (delete_selected_books_state book_ids d) as (Hst & Hbs & Hret).
  rewrite Hbs.
  destruct (delete_all_sub (check_selected d book_ids).1 d) as [_ Hsub].
  destruct (delete_all_unique d Hunique (check_selected d book_ids).1 d) as [Hkeep Hgone];
    [done|done| |].
  { intros lt (k & b & _ & Hg & Hb & _)%check_selected_to_delete.
    destruct (get_by_id_sound d k lt Hfresh Hg) as [Hin _]. split; [done|by eexists]. }
  split; [done|]. split; [done|]. split.
  { intros l b Hl Hb Hloan. apply Hkeep; [done|].
    intros (k & b' & _ & _ & Hb' & Hfree)%check_selected_to_delete.
    rewrite Hb in Hb'. injection Hb' as <-. lia. }
  split.
  { intros l b Hl Hb Hid. apply Hkeep; [done|].
    intros (k & b' & Hk & Hg & Hb' & _)%check_selected_to_delete.
    destruct (get_by_id_sound d k l Hfresh Hg) as [_ (b'' & Hb'' & Hid'')].
    rewrite Hb in Hb''. injection Hb'' as <-. congruence. }
  split.
  { rewrite Hret. split.
    - intros Hne. destruct (check_selected d book_ids).1 as [|lt rest] eqn:E; [done|].
      assert (lt ∈ (check_selected d book_ids).1) as Hin by (rewrite E; by left).
      apply check_selected_to_delete in Hin as (k & b & H). by exists k, lt, b.
    - intros (k & l & b & Hk & Hg & Hb & Hfree) E.
      assert (l ∈ (check_selected d book_ids).1) as Hin.
      { apply check_selected_to_delete. by exists k, b. }
      rewrite E in Hin. by apply elem_of_nil in Hin. }
  intros Hnd k l b Hk Hg Hb Hfree. apply (Hgone Hnd).
  apply check_selected_to_delete. by exists k, b.
Qed.

Lemma delete_selected_books_respects_loans_witness :
  0%nat ∈ books (delete_selected_books [1] one_of_five).2.
Proof.
  assert (∀ l1 l2 b1 b2,
            l1 ∈ books one_of_five → l2 ∈ books one_of_five →
            deref one_of_five l1 = Some b1 → deref one_of_five l2 = Some b2 →
            Book.id b1 = Book.id b2 → l1 = l2) as Hu.
  { intros l1 l2 b1 b2 H1 H2 _ _ _.
    apply list_elem_of_singleton in H1, H2. congruence. }
  destruct (delete_selected_books_respects_loans [1] one_of_five eq_refl Hu)
    as (_ & _ & Hloan & _).
  apply (Hloan 0%nat (Book.mk 1 "T1" "Dune" "Author" "111" "General" "" "2024"
                        0 0 5 1 "" "" (Clock.ISO 0))).
  - by left.
  - reflexivity.
  - reflexivity.
Defined.
(** ** The stock history *)

Lemma bulk_rows_history now rows : ∀ s sm,
  ∃ added,
    stock_history (fold_left (bulk_row now) rows (s, sm)).1 = stock_history s ++ added
    ∧ map StockRecord.history_id added
      = seqZ (Z.of_nat (length (stock_history s)) + 1) (Z.of_nat (length added))
    ∧ Forall (λ r, StockRecord.action r = StockRecord.bulk_restock) added
    ∧ (length added ≤ length rows)%nat.
Proof.
  induction rows as [|[isbn q] rest IH]; intros s sm; cbn [fold_left].
  - exists []. rewrite app_nil_r. simpl. repeat split; try done; try lia.
  - destruct (find_isbn (data s) isbn) as [[l book]|] eqn:Ef.
    + rewrite (bulk_row_found _ _ _ _ _ _ _ Ef).
      match goal with
      | |- context [fold_left _ rest (?s1, ?sm1)] =>
          destruct (IH s1 sm1) as (added & Hh & Hids & Hact & Hlen)
      end.
      rewrite restock_ref_history in Hh, Hids.
      rewrite length_app in Hids. simpl in Hids.
      eexists (_ :: added). split; [by rewrite Hh, <- app_assoc|].
      split.
      { simpl. rewrite seqZ_cons by lia. f_equal. rewrite Hids. f_equal; lia. }
      split; [by constructor|]. simpl. lia.
    + rewrite (bulk_row_missing _ _ _ _ _ Ef).
      match goal with
      | |- context [fold_left _ rest (?s1, ?sm1)] =>
          destruct (IH s1 sm1) as (added & Hh & Hids & Hact & Hlen)
      end.
      exists added. repeat split; try done. simpl. lia.
Qed.

(** X11.  The stock history only grows, at its end.  [restock_book] and
    the bulk restock leave the records present as they are and append
    theirs, at most one per call or per row, numbered on from the length
    of the history; so a history numbered 1, 2, ..., n stays numbered
    that way. *)
Theorem stock_history_is_append_only (now : Clock.datetime) (s : StockManagementSystem) :
  (∀ book_id quantity source notes,
     ∃ added,
       stock_history (restock_book now book_id quantity source notes s).2
       = stock_history s ++ added
       ∧ map StockRecord.history_id added
         = seqZ (Z.of_nat (length (stock_history s)) + 1) (Z.of_nat (length added))
       ∧ (length added ≤ 1)%nat
       ∧ ((restock_book now book_id quantity source notes s).1.1 = true
          ↔ length added = 1%nat))
  ∧ (∀ rows,
       ∃ added,
         stock_history (bulk_restock_from_excel now rows s).2 = stock_history s ++ added
         ∧ map StockRecord.history_id added
           = seqZ (Z.of_nat (length (stock_history s)) + 1) (Z.of_nat (length added))
         ∧ (length added ≤ length rows)%nat)
  ∧ (map StockRecord.history_id (stock_history s)
     = seqZ 1 (Z.of_nat (length (stock_history s))) →
     (∀ book_id quantity source notes,
        let h := stock_history (restock_book now book_id quantity source notes s).2 in
        map StockRecord.history_id h = seqZ 1 (Z.of_nat (length h)))
     ∧ (∀ rows,
          let h := stock_history (bulk_restock_from_excel now rows s).2 in
          map StockRecord.history_id h = seqZ 1 (Z.of_nat (length h)))).
Proof.
  assert (∀ book_id quantity source notes,
     ∃ added,
       stock_history (restock_book now book_id quantity source notes s).2
       = stock_history s ++ added
       ∧ map StockRecord.history_id added
         = seqZ (Z.of_nat (length (stock_history s)) + 1) (Z.of_nat (length added))
       ∧ (length added ≤ 1)%nat
       ∧ ((restock_book now book_id quantity source notes s).1.1 = true
          ↔ length added = 1%nat)) as Hone.
  { intros book_id quantity source notes. unfold restock_book.
    destruct (scan (data s) (has_id book_id)) as [[i l]|].
    2:{ exists []. rewrite app_nil_r. simpl. repeat split; try done; lia. }
    destruct (deref (data s) l) as [book|].
    2:{ exists []. rewrite app_nil_r. simpl. repeat split; try done; lia. }
    eexists [_]. simpl. split; [reflexivity|]. repeat split; done. }
  assert (∀ rows,
       ∃ added,
         stock_history (bulk_restock_from_excel now rows s).2 = stock_history s ++ added
         ∧ map StockRecord.history_id added
           = seqZ (Z.of_nat (length (stock_history s)) + 1) (Z.of_nat (length added))
         ∧ (length added ≤ length rows)%nat) as Hbulk.
  { intros rows. unfold bulk_restock_from_excel.
    destruct (bulk_rows_history now rows s (mkSummary [] [])) as (added & Hh & Hids & _ & Hlen).
    destruct (fold_left (bulk_row now) rows (s, mkSummary [] [])) as [s' sm].
    by exists added. }
  assert (∀ h added,
            map StockRecord.history_id (stock_history s)
            = seqZ 1 (Z.of_nat (length (stock_history s))) →
            h = stock_history s ++ added →
            map StockRecord.history_id added
            = seqZ (Z.of_nat (length (stock_history s)) + 1) (Z.of_nat (length added)) →
            map StockRecord.history_id h = seqZ 1 (Z.of_nat (length h))) as Hnum.
  { intros h added H1 -> H2. rewrite map_app, length_app, H1, H2.
    rewrite Nat2Z.inj_add, seqZ_app by lia. f_equal. f_equal. lia. }
  split; [done|]. split; [done|]. intros Hnumbered. split.
  - intros book_id quantity source notes h.
    destruct (Hone book_id quantity source notes) as (added & Hh & Hids & _).
    by apply (Hnum h added).
  - intros rows h. destruct (Hbulk rows) as (added & Hh & Hids & _).
    by apply (Hnum h added).
Qed.

(** ** The restock dialogs *)

Lemma perform_restock_state now choice quantity source notes s :
  perform_restock now choice quantity source notes s
  = match choice with
    | chosen l =>
        match quantity with
        | Some q =>
            if q <=? 0 then ([showerror "Error"], s)
            else match deref (data s) l with
                 | Some _ => ([uncaught (NameError "time")], s)
                 | None => ([], s)
                 end
        | None => ([showerror "Error"], s)
        end
    | _ => ([showerror "Error"], s)
    end.
Proof.
  unfold perform_restock. rewrite LoadingSpinner_show_raises.
  destruct choice as [| |l]; try done;
    destruct quantity as [q|]; try done;
    destruct (q <=? 0); try done; by destruct (deref (data s) l).
Qed.

Lemma save_restock_state now l quantity_text s :
  save_restock now l quantity_text s
  = match quantity_text with
    | typed None => ([showerror "Error"], s)
    | typed (Some q) =>
        if q <=? 0 then ([showerror "Error"], s)
        else match deref (data s) l with
             | Some _ => ([uncaught (NameError "time")], s)
             | None => ([], s)
             end
    | blank => match deref (data s) l with
               | Some _ => ([uncaught (NameError "time")], s)
               | None => ([], s)
               end
    end.
Proof.
  unfold save_restock. rewrite LoadingSpinner_show_raises.
  destruct quantity_text as [|[q|]]; try done;
    try (destruct (q <=? 0); try done); by destruct (deref (data s) l).
Qed.

(** X12.  The two restock dialogs take a quantity only when it is a
    number above 0; the popup reads a blank entry as 1.  Anything else
    shows an error.  A quantity that is taken does not reach
    [restock_book]: the callback ends with the [NameError] of the spinner.
    So whatever is entered, the stock and its history stay as they were,
    and no success is reported. *)
Theorem restock_dialogs_stop_before_restock_book (now : Clock.datetime)
    (s : StockManagementSystem) :
  (∀ choice quantity source notes,
     let r := perform_restock now choice quantity source notes s in
     r.2 = s
     ∧ (showinfo "Success" ∉ r.1)
     ∧ (match choice with chosen _ => False | _ => True end →
        r.1 = [showerror "Error"])
     ∧ (match quantity with Some q => q ≤ 0 | None => True end →
        r.1 = [showerror "Error"])
     ∧ (∀ l book q, choice = chosen l → deref (data s) l = Some book →
          quantity = Some q → 0 < q → r.1 = [uncaught (NameError "time")]))
  ∧ (∀ l quantity_text,
       let r := save_restock now l quantity_text s in
       r.2 = s
       ∧ (showinfo "Success" ∉ r.1)
       ∧ (match quantity_text with
          | blank => False
          | typed (Some q) => q ≤ 0
          | typed None => True
          end → r.1 = [showerror "Error"])
       ∧ (∀ book, deref (data s) l = Some book →
            match quantity_text with
            | blank => True
            | typed (Some q) => 0 < q
            | typed None => False
            end → r.1 = [uncaught (NameError "time")])
       ∧ save_restock now l blank s = save_restock now l (typed (Some 1)) s).
Proof.
  split.
  - intros choice quantity source notes r. subst r.
    rewrite perform_restock_state.
    destruct choice as [| |l]; simpl.
    1,2: repeat split; try done; by intros ?%list_elem_of_singleton.
    destruct quantity as [q|]; simpl.
    2:{ repeat split; try done; by intros ?%list_elem_of_singleton. }
    destruct (Z.leb_spec q 0) as [Hq|Hq]; simpl.
    { repeat split; try done; try by intros ?%list_elem_of_singleton.
      intros l0 book q0 _ _ [= <-] ?. lia. }
    destruct (deref (data s) l) as [book|] eqn:Hb; simpl.
    + repeat split; try done; try by intros ?%list_elem_of_singleton.
      intros ?. lia.
    + repeat split; try done; try by intros ?%elem_of_nil.
      * intros ?. lia.
      * intros l0 book q0 [= <-] Hb' _ _. congruence.
  - intros l quantity_text r. subst r.
    rewrite !save_restock_state.
    destruct quantity_text as [|[q|]]; simpl.
    + destruct (deref (data s) l) as [book|] eqn:Hb; simpl.
      * repeat split; try done; by intros ?%list_elem_of_singleton.
      * repeat split; try done; by intros ?%elem_of_nil.
    + destruct (Z.leb_spec q 0) as [Hq|Hq]; simpl.
      { repeat split; try done; try by intros ?%list_elem_of_singleton.
        intros book _ ?. lia. }
      destruct (deref (data s) l) as [book|] eqn:Hb; simpl.
      * repeat split; try done; try by intros ?%list_elem_of_singleton.
        intros ?. lia.
      * repeat split; try done; try by intros ?%elem_of_nil.
        intros ?. lia.
    + repeat split; try done; by intros ?%list_elem_of_singleton.
Qed.

(** ** The return action *)

(** X13.  The return action never changes the library: with no row
    selected it shows a warning, when the user declines it does nothing,
    and when the user confirms it ends with the [NameError] of the
    spinner before the table and the stock are reached, so it reports no
    success.  The row of the screen has the title as third value and the
    issue date as fifth, which is the one the action reads as the title. *)
Theorem mark_as_returned_never_changes_the_library (now : Clock.datetime)
    (selection : option (list string)) (confirmed : bool) (d : LibraryData) :
  let r := mark_as_returned now selection confirmed d in
  r.2 = d
  ∧ (showinfo "Success" ∉ r.1)
  ∧ (selection = None → r.1 = [showwarning "Warning"])
  ∧ (∀ values, selection = Some values → (length values < 5)%nat →
       r.1 = [uncaught IndexError])
  ∧ (∀ values, selection = Some values → (5 ≤ length values)%nat →
       r.1 = if confirmed then [uncaught (NameError "time")] else [])
  ∧ (∀ today row, selection = Some (borrower_row today row) →
       r.1 = if confirmed then [uncaught (NameError "time")] else [])
  ∧ (∀ today row,
       borrower_row today row !! 0%nat = Some (AdminSave.student_name row)
       ∧ borrower_row today row !! 2%nat = Some (AdminSave.book_title row)
       ∧ borrower_row today row !! 4%nat
         = Some (Clock.text (AdminSave.issue_date row))).
Proof.
  intros r. subst r. rewrite mark_as_returned_state.
  assert (∀ values,
            selection = Some values → (5 ≤ length values)%nat →
            (match selection with
             | Some values =>
                 if bool_decide (5 ≤ length values)%nat
                 then if confirmed then ([uncaught (NameError "time")], d) else ([], d)
                 else ([uncaught IndexError], d)
             | None => ([showwarning "Warning"], d)
             end).1 = (if confirmed then [uncaught (NameError "time")] else []))
    as Hlong.
  { intros values -> Hlen. rewrite bool_decide_eq_true_2 by done.
    by destruct confirmed. }
  split.
  { destruct selection as [values|]; [|done].
    destruct (bool_decide (5 ≤ length values)%nat); [|done]. by destruct confirmed. }
  split.
  { destruct selection as [values|]; simpl.
    - destruct (bool_decide (5 ≤ length values)%nat); simpl.
      + destruct confirmed; simpl.
        * by intros ?%list_elem_of_singleton.
        * by intros ?%elem_of_nil.
      + by intros ?%list_elem_of_singleton.
    - by intros ?%list_elem_of_singleton. }
  split; [by intros ->|].
  split.
  { intros values -> Hlen. by rewrite bool_decide_eq_false_2 by lia. }
  split; [exact Hlong|].
  split.
  { intros today row Hsel. apply (Hlong _ Hsel). rewrite length_borrower_row. lia. }
  intros today row. unfold borrower_row.
  destruct (Clock.strptime_ymd (AdminSave.due_date row)) as [due_date|]; [|done].
  simpl. destruct (Clock.delta_days due_date today <? 0); [done|].
  by destruct (Clock.delta_days due_date today =? 0).
Qed.

(** ** The edit dialog *)

(** X14.  The update button of the edit dialog never changes the library
    and never reports success: entries that pass its checks do not reach
    [update_book], the callback ends with the [NameError] of the spinner
    (or, with a page count that is no number, with a [ValueError]). *)
Theorem edit_dialog_stops_before_update_book (l : ref) (form : EditForm)
    (d : LibraryData) :
  let r := edit_book_update l form d in
  r.2 = d
  ∧ (showinfo "Success" ∉ r.1)
  ∧ (∀ book n,
       deref d l = Some book →
       truthy (form_sno form) = true → truthy (form_author form) = true →
       truthy (form_title form) = true →
       form_total_copies form = Some n → 1 ≤ n → Book.issued book ≤ n →
       r.1 = match form_pages form with
             | Some _ => [uncaught (NameError "time")]
             | None => [uncaught ValueError]
             end).
Proof.
  intros r. subst r. unfold edit_book_update.
  rewrite LoadingSpinner_show_raises.
  destruct (deref d l) as [book|] eqn:Hb; simpl.
  2:{ repeat split; try done. by intros ?%elem_of_nil. }
  destruct (truthy (form_sno form)); simpl.
  2:{ repeat split; try done. by intros ?%list_elem_of_singleton. }
  destruct (truthy (form_author form)); simpl.
  2:{ repeat split; try done. by intros ?%list_elem_of_singleton. }
  destruct (truthy (form_title form)); simpl.
  2:{ repeat split; try done. by intros ?%list_elem_of_singleton. }
  destruct (form_total_copies form) as [n|]; simpl.
  2:{ repeat split; try done. by intros ?%list_elem_of_singleton. }
  destruct (Z.ltb_spec n 1); simpl.
  { repeat split; try done; [by intros ?%list_elem_of_singleton|].
    intros book0 n0 _ _ _ _ [= <-] ? _. lia. }
  destruct (Z.ltb_spec n (Book.total_copies book - Book.available_copies book)); simpl.
  { repeat split; try done; [by intros ?%list_elem_of_singleton|].
    intros book0 n0 [= <-] _ _ _ [= <-] _ Hle. unfold Book.issued in Hle. lia. }
  destruct (form_pages form); simpl;
    repeat split; try done; by intros ?%list_elem_of_singleton.
Qed.

(** ** Statistics *)

Lemma borrowed_nonneg d :
  I1 d → 0 ≤ sum_books Book.total_copies d - sum_books Book.available_copies d.
Proof.
  unfold I1, sum_books. induction (books d) as [|l bs IH]; intros H; simpl; [lia|].
  assert (0 ≤ fold_right (λ l acc, from_option Book.total_copies 0 (deref d l) + acc) 0 bs
              - fold_right (λ l acc, from_option Book.available_copies 0 (deref d l) + acc)
                  0 bs) as IH'.
  { apply IH. intros l' b' Hl'. apply H. by right. }
  destruct (deref d l) as [b|] eqn:Hb; simpl; [|lia].
  specialize (H l b ltac:(by left) Hb). lia.
Qed.

Lemma FastCache_set_stores {V} key (value : V) c c' :
  FastCache.set key value c = Some c' →
  dict_get key (FastCache.cache c') = Some value.
Proof.
  unfold FastCache.set. intros Hset.
  destruct (Z.of_nat (length (FastCache.cache c)) >=? FastCache.max_size c).
  - destruct (dict_min_key (FastCache.access_count c)) as [lru|]; [|done].
    simpl in Hset.
    destruct (dict_del lru (FastCache.cache c)) as [cache1|]; [|done].
    simpl in Hset.
    destruct (dict_del lru (FastCache.access_count c)) as [count1|]; [|done].
    injection Hset as <-. simpl. by rewrite dict_get_set_eq.
  - injection Hset as <-. simpl. by rewrite dict_get_set_eq.
Qed.

Lemma get_statistics_hit c d v :
  dict_get "library_stats" (FastCache.cache c) = Some v → cached_truthy v = true →
  get_statistics c d = Some (v, (FastCache.get "library_stats" c).2)
  ∧ dict_get "library_stats" (FastCache.cache (FastCache.get "library_stats" c).2)
    = Some v.
Proof.
  intros Hg Ht. unfold get_statistics, FastCache.get. rewrite Hg. simpl.
  by rewrite Ht.
Qed.

(** X15.  [get_statistics] answers from the cache: once it has answered,
    it gives the same answer whatever the library has become, also after
    [restock_book], which does not clear the cache.  On a cleared cache of
    capacity 1 or more it counts afresh: the borrowed copies are then the
    total less the available copies, and not negative when every book has
    0 <= available <= total. *)
Theorem get_statistics_answers_from_the_cache (c : FastCache.t Cached)
    (d : LibraryData) :
  (∀ v c', get_statistics c d = Some (v, c') →
     ∀ d', ∃ c'', get_statistics c' d' = Some (v, c''))
  ∧ (1 ≤ FastCache.max_size c →
     ∃ c', get_statistics (FastCache.clear c) d
           = Some (cached_statistics (count_statistics d), c'))
  ∧ stat_borrowed_copies (count_statistics d)
    = stat_total_copies (count_statistics d) - stat_available_copies (count_statistics d)
  ∧ (I1 d → 0 ≤ stat_borrowed_copies (count_statistics d))
  ∧ (let cache0 := FastCache.new 500 in
     let restocked_five :=
       data (restock_book 0 1 3 "" "" (mkStock five_copies [])).2 in
     ∃ stats cache1 cache2,
       get_statistics cache0 five_copies = Some (cached_statistics stats, cache1)
       ∧ get_statistics cache1 restocked_five = Some (cached_statistics stats, cache2)
       ∧ stat_total_copies stats = 5
       ∧ stat_total_copies (count_statistics restocked_five) = 8).
Proof.
  split; [|split; [|split; [|split]]].
  - intros v c' Hget d'.
    assert (dict_get "library_stats" (FastCache.cache c') = Some v
            ∧ cached_truthy v = true) as [Hg Ht].
    { unfold get_statistics in Hget.
      destruct (FastCache.get "library_stats" c) as [cached cache1] eqn:Eg.
      destruct (from_option cached_truthy false cached) eqn:Et.
      - destruct cached as [v0|]; [|done]. simpl in *. injection Hget as <- <-.
        split; [|done]. unfold FastCache.get in Eg.
        destruct (dict_get "library_stats" (FastCache.cache c)) as [v1|] eqn:E1;
          [|done].
        injection Eg as <- <-. done.
      - destruct (FastCache.set "library_stats"
                    (cached_statistics (count_statistics d)) cache1) as [cache2|] eqn:Es;
          [|done].
        simpl in Hget. injection Hget as <- <-.
        split; [|done]. by eapply FastCache_set_stores. }
    eexists. by apply get_statistics_hit.
  - intros Hcap. unfold get_statistics, FastCache.get, FastCache.clear. simpl.
    unfold FastCache.set. simpl.
    destruct (Z.geb_spec (Z.of_nat 0) (FastCache.max_size c)) as [Hge|];
      [simpl in Hge; lia|].
    simpl. by eexists.
  - done.
  - intros HI. simpl. by apply borrowed_nonneg.
  - cbv zeta. eexists _, _, _. by vm_compute.
Qed.

(** ** Observers *)

Section Observers.

Import DataChangeObserver.

Lemma list_remove_elem x y xs : y ∈ list_remove x xs → y ∈ xs.
Proof.
  induction xs as [|z rest IH]; simpl; [done|].
  destruct (Nat.eqb z x); [by right|].
  intros [->|H]%elem_of_cons; [by left|right; by apply IH].
Qed.

Lemma list_remove_other x y xs : y ≠ x → y ∈ xs → y ∈ list_remove x xs.
Proof.
  intros Hne. induction xs as [|z rest IH]; simpl; [done|].
  destruct (Nat.eqb_spec z x) as [->|Hzx].
  - intros [->|H]%elem_of_cons; [done|done].
  - intros [->|H]%elem_of_cons; [by left|right; by apply IH].
Qed.

Lemma list_remove_NoDup x xs :
  NoDup xs → NoDup (list_remove x xs) ∧ x ∉ list_remove x xs.
Proof.
  induction xs as [|z rest IH]; simpl.
  - intros _. split; [constructor|by intros ?%elem_of_nil].
  - intros [Hz Hrest]%NoDup_cons. destruct (Nat.eqb_spec z x) as [->|Hzx].
    + done.
    + destruct (IH Hrest) as [Hnd Hx]. split.
      * apply NoDup_cons. split; [|done]. by intros ?%list_remove_elem.
      * intros [->|H]%elem_of_cons; done.
Qed.

Lemma list_remove_snoc x xs : x ∉ xs → list_remove x (xs ++ [x]) = xs.
Proof.
  induction xs as [|z rest IH]; simpl; intros Hx.
  - by rewrite Nat.eqb_refl.
  - destruct (Nat.eqb_spec z x) as [->|Hzx].
    + exfalso. apply Hx. by left.
    + f_equal. apply IH. intros H. apply Hx. by right.
Qed.

End Observers.

(** X16.  A list of observers without repetition stays one under
    [register_observer] and [unregister_observer].  Registering an
    observer twice is registering it once and keeps the earlier observers
    in their places; a registered observer is called exactly once per
    notification, in registration order; an unregistered one is not
    called, the others still are; and unregistering an observer that was
    just added gives the list back. *)
Theorem observers_are_called_once (observer : nat) (observers : list nat)
    (Hnodup : NoDup observers) :
  let registered := DataChangeObserver.register_observer observer observers in
  let removed := DataChangeObserver.unregister_observer observer observers in
  NoDup registered ∧ observer ∈ registered
  ∧ (observers `prefix_of` registered)
  ∧ DataChangeObserver.register_observer observer registered = registered
  ∧ (∀ E (event : E),
       map fst (DataChangeObserver.notify_observers registered event) = registered
       ∧ count_occ Nat.eq_dec
           (map fst (DataChangeObserver.notify_observers registered event)) observer
         = 1%nat)
  ∧ NoDup removed ∧ (observer ∉ removed)
  ∧ (∀ other, other ≠ observer → other ∈ observers → other ∈ removed)
  ∧ (observer ∉ observers →
     DataChangeObserver.unregister_observer observer registered = observers).
Proof.
  intros registered removed. subst registered removed.
  unfold DataChangeObserver.register_observer, DataChangeObserver.unregister_observer.
  assert (∀ E (event : E) xs,
            map fst (DataChangeObserver.notify_observers xs event) = xs) as Hfst.
  { intros E event xs. unfold DataChangeObserver.notify_observers.
    rewrite map_map. simpl. apply map_id. }
  destruct (list_remove_NoDup observer observers Hnodup) as [Hrem Hgone].
  case_bool_decide as Hin.
  - rewrite bool_decide_eq_true_2 by done.
    split; [done|]. split; [done|]. split; [done|]. split; [done|].
    split.
    { intros E event. rewrite Hfst. split; [done|].
      apply (proj1 (NoDup_count_occ' Nat.eq_dec _)); [by apply NoDup_ListNoDup|].
      by apply list_elem_of_In. }
    split; [done|]. split; [done|].
    split; [intros other Hne Ho; by apply list_remove_other|done].
  - assert (NoDup (observers ++ [observer])) as Hnd'.
    { apply NoDup_app. split; [done|]. split; [|apply NoDup_singleton].
      intros x Hx ->%list_elem_of_singleton. done. }
    assert (observer ∈ observers ++ [observer]) as Hin'
      by (apply elem_of_app; right; by left).
    split; [done|]. split; [done|].
    split; [by apply prefix_app_r|].
    split; [by rewrite bool_decide_eq_true_2|].
    split.
    { intros E event. rewrite Hfst. split; [done|].
      apply (proj1 (NoDup_count_occ' Nat.eq_dec _)); [by apply NoDup_ListNoDup|].
      by apply list_elem_of_In. }
    split; [done|]. split; [done|]. split; [done|].
    intros _. rewrite bool_decide_eq_true_2 by done. by apply list_remove_snoc.
Qed.

Lemma observers_are_called_once_witness :
  DataChangeObserver.register_observer 7%nat
    (DataChangeObserver.register_observer 7%nat [3%nat])
  = DataChangeObserver.register_observer 7%nat [3%nat].
Proof.
  apply (observers_are_called_once 7%nat [3%nat]).
  apply NoDup_singleton.
Defined.
